(** * InvenTree schema-driven form fields: a shallow embedding

    The development follows two components of the frontend,
    [components/forms/fields/ApiFormField.tsx] (the generic field renderer)
    and [components/forms/fields/RelatedModelField.tsx] (the searchable
    related-entity selector).  Event handlers and effect bodies are embedded
    as functions from the values captured by the render closure to the list
    of commands they issue, in program order; a small interpreter gives the
    commands their meaning on the form-state container and on the
    component's local state. *)

From stdpp Require Import gmap strings list pretty.
From Stdlib Require Import Ascii ZArith QArith Qcanon.

#[local] Set Warnings "-register-all".
#[local] Open Scope string_scope.
#[local] Open Scope list_scope.
#[local] Open Scope Z_scope.

(** ** JavaScript values *)

Module JS.

(** Primitive values as they travel through the form: identifiers, texts,
    flags.  Numbers held here are integers (primary keys, offsets); NaN and
    fractions only arise from the numeric parsers and live in [JsNumber]. *)
Inductive Prim : Type :=
  | PUndefined
  | PNull
  | PBool (b : bool)
  | PNum (n : Z)
  | PStr (s : string).

#[export] Instance Prim_eq_dec : EqDecision Prim.
Proof. solve_decision. Defined.

(** ToBoolean *)
Definition truthy (v : Prim) : bool :=
  match v with
  | PUndefined | PNull => false
  | PBool b => b
  | PNum n => negb (n =? 0)
  | PStr s => negb (String.eqb s "")
  end.

Definition nullish (v : Prim) : bool :=
  match v with
  | PUndefined | PNull => true
  | _ => false
  end.

(** [a === b] on primitives *)
Definition strict_eq (a b : Prim) : bool := bool_decide (a = b).

(** [a ?? b] *)
Definition coalesce (a b : Prim) : Prim := if nullish a then b else a.

(** [a || b] *)
Definition or_else (a b : Prim) : Prim := if truthy a then a else b.

(** [Array.prototype.includes] (SameValueZero, which on these primitives
    is equality) *)
Fixpoint includes (l : list Prim) (x : Prim) : bool :=
  match l with
  | [] => false
  | y :: l' => strict_eq y x || includes l' x
  end.

(** ToString, as used by template literals (integers print in plain
    decimal, which is what JavaScript does below 10^21 in magnitude) *)
Definition to_string (v : Prim) : string :=
  match v with
  | PUndefined => "undefined"
  | PNull => "null"
  | PBool true => "true"
  | PBool false => "false"
  | PNum n => pretty n
  | PStr s => s
  end.

(** ToString of an optional string attribute ([undefined] when absent) *)
Definition opt_to_string (o : option string) : string :=
  match o with
  | Some s => s
  | None => "undefined"
  end.

(** A JSON object with primitive members; reading a missing member gives
    [undefined]. *)
Abbreviation Obj := (gmap string Prim).

Definition prop (o : Obj) (k : string) : Prim := default PUndefined (o !! k).

(** The result type of [parseInt] / [parseFloat]: an IEEE number seen
    through its classification, finite values carried as the rational
    they denote. *)
Inductive JsNumber : Type :=
  | NaN
  | Infinity (negative : bool)
  | Finite (q : Qc).

Definition isNaN (n : JsNumber) : bool :=
  match n with NaN => true | _ => false end.

Definition isFinite (n : JsNumber) : bool :=
  match n with Finite _ => true | _ => false end.

Definition zero : JsNumber := Finite 0%Qc.

End JS.

Export JS.

(** ** Reference behaviour of the built-in parsers on ASCII input

    [numericalValue] is stated for arbitrary parsers; the functions below
    follow ECMAScript's [parseInt] (radix argument absent) and [parseFloat]
    on the primitives above and serve as the concrete instance.  A finite
    result is the exact value of the digits read; a magnitude at or above
    2^1024 - 2^970 reads as an infinity, the way rounding to binary64
    does. *)

Module Builtins.

Definition is_space (c : ascii) : bool :=
  match c with
  | " "%char | "009"%char | "010"%char | "011"%char | "012"%char
  | "013"%char => true
  | _ => false
  end.

Fixpoint skip_spaces (s : string) : string :=
  match s with
  | String c r => if is_space c then skip_spaces r else s
  | EmptyString => s
  end.

Definition digit_value (c : ascii) : option Z :=
  let n := Z.of_nat (nat_of_ascii c) in
  if (48 <=? n) && (n <=? 57) then Some (n - 48)
  else if (97 <=? n) && (n <=? 122) then Some (n - 87)
  else if (65 <=? n) && (n <=? 90) then Some (n - 55)
  else None.

(** Longest prefix of digits below [radix]: their value, their number, and
    the rest of the text. *)
Fixpoint read_digits (radix : Z) (s : string) (acc : Z) (count : nat)
  : Z * nat * string :=
  match s with
  | String c r =>
      match digit_value c with
      | Some d => if d <? radix then read_digits radix r (acc * radix + d) (S count)
                  else (acc, count, s)
      | None => (acc, count, s)
      end
  | EmptyString => (acc, count, s)
  end.

Definition read_sign (s : string) : bool * string :=
  match s with
  | String "-"%char r => (true, r)
  | String "+"%char r => (false, r)
  | _ => (false, s)
  end.

Definition read_radix (s : string) : Z * string :=
  match s with
  | String "0"%char (String "x"%char r) | String "0"%char (String "X"%char r) => (16, r)
  | _ => (10, s)
  end.

Definition overflow_bound : Z := 2 ^ 1024 - 2 ^ 970.

Definition to_number (negative : bool) (magnitude : Q) : JsNumber :=
  if Qle_bool (inject_Z overflow_bound) magnitude then Infinity negative
  else Finite (Q2Qc (if negative then Qopp magnitude else magnitude)).

Definition parseInt (v : Prim) : JsNumber :=
  let s := skip_spaces (to_string v) in
  let '(negative, s) := read_sign s in
  let '(radix, s) := read_radix s in
  let '(n, count, _) := read_digits radix s 0 O in
  match count with
  | O => NaN
  | S _ => to_number negative (inject_Z n)
  end.

Definition scale (mantissa exponent : Z) : Q :=
  match exponent with
  | Zneg p => Qmake mantissa (Z.to_pos (10 ^ Zpos p))
  | _ => inject_Z (mantissa * 10 ^ exponent)
  end.

(** Optional exponent part: [e], an optional sign and at least one digit. *)
Definition read_exponent (s : string) : Z :=
  match s with
  | String "e"%char r | String "E"%char r =>
      let '(negative, r) := read_sign r in
      let '(e, count, _) := read_digits 10 r 0 O in
      match count with
      | O => 0
      | S _ => if negative then - e else e
      end
  | _ => 0
  end.

Definition parseFloat (v : Prim) : JsNumber :=
  let s := skip_spaces (to_string v) in
  let '(negative, s) := read_sign s in
  if String.prefix "Infinity" s then Infinity negative
  else
    let '(whole, wcount, s) := read_digits 10 s 0 O in
    let '(mantissa, fcount, s) :=
      match s with
      | String "."%char r =>
          let '(m, count, r') := read_digits 10 r whole O in (m, count, r')
      | _ => (whole, O, s)
      end in
    match (wcount + fcount)%nat with
    | O => NaN
    | S _ => to_number negative
               (scale mantissa (read_exponent s - Z.of_nat fcount))
    end.

End Builtins.

(** ** The form-state container and the command language *)

(** The shared form-state container: one value per field name. *)
Abbreviation Form := (gmap string Prim).

(** The body of a response ([response.data]). *)
Inductive Body : Type :=
  | BPrim (p : Prim)                           (* empty or scalar body *)
  | BObject (o : Obj)                          (* one record *)
  | BArray (items : list Obj)                  (* a bare list of records *)
  | BPage (results : list Obj) (rest : Obj).   (* { results: [...], ... } *)

#[export] Instance Body_eq_dec : EqDecision Body.
Proof. solve_decision. Defined.

(** An option of the select widget: [{ value: pk, data: item }]. *)
Record SelectOption : Type := mkOption {
  opt_value : Prim;
  opt_data : Body
}.

#[export] Instance SelectOption_eq_dec : EqDecision SelectOption.
Proof. solve_decision. Defined.

(** Rendered content supplied by the caller ([ReactNode], [JSX.Element]),
    kept as opaque markup. *)
Abbreviation Node := string.

(** The commands a handler can issue.  A handler is a list of them, in the
    order of its statements. *)
Inductive Cmd : Type :=
  | FieldOnChange (v : Prim)                    (* field.onChange(v) *)
  | OnValueChange (cb : Prim -> Form -> Form) (v : Prim)
                                                (* definition.onValueChange(v) *)
  | SetPk (p : Prim)
  | SetOffset (n : Z)
  | SetData (d : list SelectOption)
  | SetValue (s : string)
  | ApiGet (url : string) (params : option Obj)  (* api.get(url, { params }) *)
  | Refetch.                                    (* selectQuery.refetch() *)

(** [ApiFormFieldType]: every attribute is optional; an absent attribute
    reads as [undefined], which is [None] here ([PUndefined] for the two
    attributes of type [any]). *)
Inductive ApiFormFieldType : Type := mkApiFormFieldType {
  label : option string;
  value : Prim;
  default_ : Prim;
  icon : option Node;
  field_type : option string;
  api_url : option string;
  model : option string;
  modelRenderer : option (Obj -> Node);
  filters : option Obj;
  children : option (list (string * ApiFormFieldType));
  required : option bool;
  choices : option (list Prim);
  hidden : option bool;
  disabled : option bool;
  read_only : option bool;
  placeholder : option string;
  description : option string;
  preFieldContent : option Node;
  postFieldContent : option Node;
  onValueChange : option (Prim -> Form -> Form);
  adjustFilters : option (Obj -> Obj)
}.

(** Truthiness of an optional flag and of an optional string. *)
Definition flag (o : option bool) : bool := default false o.

Definition nonempty (o : option string) : bool :=
  match o with
  | Some s => negb (String.eqb s "")
  | None => false
  end.

(** [definition.onValueChange?.(v)] *)
Definition call_onValueChange (definition : ApiFormFieldType) (v : Prim) : list Cmd :=
  match onValueChange definition with
  | Some cb => [OnValueChange cb v]
  | None => []
  end.

(** [props.children] as an element receives it.  A JSX child written
    between the tags replaces a [children] member of the spread attributes;
    a self-closing element receives the member of the spread, if any. *)
Inductive ChildrenProp (C : Type) : Type :=
  | NoChildren
  | SpreadChildren (nested : list (string * ApiFormFieldType))
  | JsxChild (child : C).
Arguments NoChildren {C}.
Arguments SpreadChildren {C} nested.
Arguments JsxChild {C} child.

Definition props_children {C} (spread : ApiFormFieldType) (child : option C)
  : ChildrenProp C :=
  match child with
  | Some c => JsxChild c
  | None =>
      match children spread with
      | Some nested => SpreadChildren nested
      | None => NoChildren
      end
  end.

(** *** Local state of a related-entity field and the interpreter *)

Record Local : Type := mkLocal {
  pk : Prim;                       (* useState<number | null>(null) *)
  offset : Z;                      (* useState<number>(0) *)
  data : list SelectOption;        (* useState<any[]>([]) *)
  input : string;                  (* useState<string>(''), named [value] in the source *)
  searchText : string              (* useDebouncedValue(value, 250) *)
}.

Definition initial_local : Local :=
  {| pk := PNull; offset := 0; data := []; input := ""; searchText := "" |}.

Inductive Request : Type :=
  | ReqGet (url : string) (params : option Obj)
  | ReqRefetch.

Record Machine : Type := mkMachine {
  form : Form;
  local : Local;
  requests : list Request          (* requests issued so far, oldest first *)
}.

(** Meaning of one command for the field registered under [name]. *)
Definition exec (name : string) (c : Cmd) (m : Machine) : Machine :=
  let l := local m in
  match c with
  | FieldOnChange v =>
      {| form := <[name := v]> (form m); local := l; requests := requests m |}
  | OnValueChange cb v =>
      {| form := cb v (form m); local := l; requests := requests m |}
  | SetPk p =>
      {| form := form m;
         local := {| pk := p; offset := offset l; data := data l;
                     input := input l; searchText := searchText l |};
         requests := requests m |}
  | SetOffset n =>
      {| form := form m;
         local := {| pk := pk l; offset := n; data := data l;
                     input := input l; searchText := searchText l |};
         requests := requests m |}
  | SetData d =>
      {| form := form m;
         local := {| pk := pk l; offset := offset l; data := d;
                     input := input l; searchText := searchText l |};
         requests := requests m |}
  | SetValue s =>
      {| form := form m;
         local := {| pk := pk l; offset := offset l; data := data l;
                     input := s; searchText := searchText l |};
         requests := requests m |}
  | ApiGet url params =>
      {| form := form m; local := l;
         requests := requests m ++ [ReqGet url params] |}
  | Refetch =>
      {| form := form m; local := l; requests := requests m ++ [ReqRefetch] |}
  end.

Definition run (name : string) (cs : list Cmd) (m : Machine) : Machine :=
  fold_left (fun m c => exec name c m) cs m.

(** The debounce timer firing: the typed text becomes the search text. *)
Definition debounce_settle (m : Machine) : Machine :=
  let l := local m in
  {| form := form m;
     local := {| pk := pk l; offset := offset l; data := data l;
                 input := input l; searchText := input l |};
     requests := requests m |}.

(** *** Promises *)

Inductive Error : Type :=
  | NetworkError
  | TypeError.

Inductive Settled (A : Type) : Type :=
  | Fulfilled (a : A)
  | Rejected (e : Error).
Arguments Fulfilled {A} a.
Arguments Rejected {A} e.

(** A settled promise chain together with the commands its callbacks
    issued while running. *)
Definition Promise (A : Type) : Type := list Cmd * Settled A.

Definition resolve {A} (a : A) : Promise A := ([], Fulfilled a).
Definition throw {A} (e : Error) : Promise A := ([], Rejected e).

(** [p.then(f)] *)
Definition then_ {A B} (p : Promise A) (f : A -> Promise B) : Promise B :=
  match p with
  | (cs, Fulfilled a) => let '(cs', r) := f a in (cs ++ cs', r)
  | (cs, Rejected e) => (cs, Rejected e)
  end.

(** [p.catch(g)] *)
Definition catch_ {A} (p : Promise A) (g : Error -> Promise A) : Promise A :=
  match p with
  | (cs, Fulfilled a) => (cs, Fulfilled a)
  | (cs, Rejected e) => let '(cs', r) := g e in (cs ++ cs', r)
  end.

(** The remote endpoint, as seen by [api.get]. *)
Abbreviation Server := (string -> option Obj -> Settled Body).

Definition api_get (server : Server) (url : string) (params : option Obj)
  : Promise Body :=
  ([ApiGet url params], server url params).

(** Message catalogue lookup (the [t] macro), at the source locale. *)
Definition t (msg : string) : string := msg.

(** ** RelatedModelField.tsx *)

Module RelatedModelField.

(** [data.pk] for a response body; only objects carry members. *)
Definition body_pk (b : Body) : Prim :=
  match b with
  | BObject o => prop o "pk"
  | BPage _ rest => prop rest "pk"
  | BArray _ | BPrim _ => PUndefined
  end.

Definition body_truthy (b : Body) : bool :=
  match b with
  | BPrim p => truthy p
  | _ => true
  end.

(** [response.data?.results] *)
Definition body_results (b : Body) : Body :=
  match b with
  | BPage results _ => BArray results
  | BObject o => BPrim (prop o "results")
  | BArray _ | BPrim _ => BPrim PUndefined
  end.

(** [a ?? b] on bodies *)
Definition body_coalesce (a b : Body) : Body :=
  match a with
  | BPrim p => if nullish p then b else a
  | _ => a
  end.

(** The effect resolving an initial value (lines 39-62): [field_value] is
    [field.value], [pk_] the locally tracked selection. *)
Definition initial_value_effect (definition : ApiFormFieldType)
    (server : Server) (field_value pk_ : Prim) : Promise unit :=
  (* If the value is unchanged, do nothing *)
  if strict_eq field_value pk_ then resolve tt
  else if negb (strict_eq field_value PNull) then
    let url := opt_to_string (api_url definition) +:+ to_string field_value +:+ "/" in
    then_ (api_get server url None) (fun data =>
      if body_truthy data && truthy (body_pk data) then
        let value := {| opt_value := body_pk data; opt_data := data |} in
        ([SetData [value]; SetPk (body_pk data)], Fulfilled tt)
      else resolve tt)
  else ([SetPk PNull], Fulfilled tt).

(** [enabled] of the list query *)
Definition enabled (definition : ApiFormFieldType) : bool :=
  negb (flag (disabled definition)) && nonempty (api_url definition)
  && negb (flag (hidden definition)).

(** [queryKey] of the list query *)
Definition queryKey (fieldName fieldId : string) (s : Local)
  : string * string * Z * string :=
  ("related-field-" +:+ fieldName, fieldId, offset s, searchText s).

(** One iteration of [results.forEach]: do not push already existing items
    into the values array. *)
Definition push_item (alreadyPresentPks : list Prim)
    (values : list SelectOption) (item : Obj) : list SelectOption :=
  if includes alreadyPresentPks (prop item "pk") then values
  else values ++ [{| opt_value := coalesce (prop item "pk") (PNum (-1));
                     opt_data := BObject item |}].

(** [results.forEach(...)]; calling it on something that is not an array
    raises a TypeError. *)
Definition for_each_push (alreadyPresentPks : list Prim)
    (values : list SelectOption) (results : Body)
  : Settled (list SelectOption) :=
  match results with
  | BArray items => Fulfilled (fold_left (push_item alreadyPresentPks) items values)
  | _ => Rejected TypeError
  end.

(** The [.then] callback of the list query (lines 97-115); [data_] is the
    option list captured by the render closure. *)
Inductive QueryValue : Type :=
  | QNull
  | QResponse (b : Body)
  | QError (e : Error).

Definition list_then (data_ : list SelectOption) (response : Body)
  : Promise QueryValue :=
  let values := data_ in
  let alreadyPresentPks := map opt_value values in
  let results :=
    body_coalesce (body_coalesce (body_results response) response) (BArray []) in
  match for_each_push alreadyPresentPks values results with
  | Fulfilled values' => ([SetData values'], Fulfilled (QResponse response))
  | Rejected e => throw e
  end.

(** The [.catch] callback (lines 116-119) *)
Definition list_catch (error : Error) : Promise QueryValue :=
  ([SetData []], Fulfilled (QError error)).

(** The parameters of a list request: [{...filters, search, offset, limit}] *)
Definition query_params (definition : ApiFormFieldType) (limit : Z) (s : Local) : Obj :=
  let filters0 := default ∅ (filters definition) in
  let filters1 :=
    match adjustFilters definition with
    | Some f => f filters0
    | None => filters0
    end in
  <["limit" := PNum limit]>
    (<["offset" := PNum (offset s)]>
       (<["search" := PStr (searchText s)]> filters1)).

(** [queryFn] (lines 75-120), run from the render whose state is [s]. *)
Definition queryFn (definition : ApiFormFieldType) (limit : Z)
    (server : Server) (s : Local) : Promise QueryValue :=
  match api_url definition with
  | Some url =>
      if String.eqb url "" then resolve QNull
      else
        catch_
          (then_ (api_get server url (Some (query_params definition limit s)))
                 (list_then (data s)))
          list_catch
  | None => resolve QNull
  end.

(** The argument react-select hands to [onChange]: an option, or a
    primitive ([null] when the selection is cleared). *)
Inductive Selected : Type :=
  | SelPrim (p : Prim)
  | SelOption (o : SelectOption).

(** [value?.value] *)
Definition selected_value (v : Selected) : Prim :=
  match v with
  | SelOption o => opt_value o
  | SelPrim _ => PUndefined
  end.

(** [onChange] (lines 142-153) *)
Definition onChange (definition : ApiFormFieldType) (v : Selected) : list Cmd :=
  let _pk := coalesce (selected_value v) PNull in
  [FieldOnChange _pk; SetPk _pk] ++ call_onValueChange definition _pk.

(** The cut-down definition handed to the wrapper (lines 158-165) *)
Definition fieldDefinition (definition : ApiFormFieldType) : ApiFormFieldType :=
  {| label := label definition;
     value := value definition;
     default_ := default_ definition;
     icon := icon definition;
     field_type := field_type definition;
     api_url := api_url definition;
     model := model definition;
     modelRenderer := modelRenderer definition;
     filters := filters definition;
     children := children definition;
     required := required definition;
     choices := choices definition;
     hidden := hidden definition;
     disabled := disabled definition;
     read_only := None;
     placeholder := placeholder definition;
     description := description definition;
     preFieldContent := preFieldContent definition;
     postFieldContent := postFieldContent definition;
     onValueChange := None;
     adjustFilters := None |}.

(** The three results of [pk !== null && data.find(...)]: [false] when the
    selection is [null], the entry found, or [undefined] when no entry
    carries the selection.  The select is controlled by the first two and
    left to its own state by [undefined]. *)
Inductive Current : Type :=
  | CurrentFalse
  | CurrentUndefined
  | CurrentOption (o : SelectOption).

(** [currentValue] (lines 167-170) *)
Definition currentValue (s : Local) : Current :=
  if negb (strict_eq (pk s) PNull)
  then match List.find (fun item => strict_eq (opt_value item) (pk s)) (data s) with
       | Some o => CurrentOption o
       | None => CurrentUndefined
       end
  else CurrentFalse.

(** Handlers of the select widget (lines 179-190) *)
Definition onInputChange (v : string) : list Cmd :=
  [SetValue v; SetOffset 0; SetData []].

Definition onMenuScrollToBottom (limit : Z) (s : Local) : list Cmd :=
  [SetOffset (offset s + limit)].

Definition onMenuOpen : list Cmd :=
  [SetValue ""; SetOffset 0; Refetch].

(** The rendered tree (lines 172-208).  Of the attributes of [Select], the
    loading indicator, the portal and style settings and the option
    formatter are left out. *)
Record SelectProps : Type := mkSelectProps {
  sel_id : string;
  sel_value : Current;
  sel_options : list SelectOption;
  sel_onInputChange : string -> list Cmd;
  sel_onChange : Selected -> list Cmd;
  sel_onMenuScrollToBottom : list Cmd;
  sel_onMenuOpen : list Cmd;
  sel_isClearable : bool;
  sel_isDisabled : option bool;
  sel_isSearchable : bool;
  sel_placeholder : string;
  sel_noOptionsMessage : string
}.

(** [<Input.Wrapper {...fieldDefinition} error={...}> <Select .../> </Input.Wrapper>]:
    the JSX child takes the place of any [children] member of the spread. *)
Record InputWrapper : Type := mkInputWrapper {
  wrapper_spread : ApiFormFieldType;
  wrapper_error : option string;
  wrapper_children : SelectProps
}.

(** [props.children] of the wrapper element. *)
Definition wrapper_props_children (w : InputWrapper) : ChildrenProp SelectProps :=
  props_children (wrapper_spread w) (Some (wrapper_children w)).

Definition render (definition : ApiFormFieldType) (fieldId : string)
    (error : option string) (limit : Z) (s : Local) : InputWrapper :=
  {| wrapper_spread := fieldDefinition definition;
     wrapper_error := error;
     wrapper_children :=
       {| sel_id := fieldId;
          sel_value := currentValue s;
          sel_options := data s;
          sel_onInputChange := onInputChange;
          sel_onChange := onChange definition;
          sel_onMenuScrollToBottom := onMenuScrollToBottom limit s;
          sel_onMenuOpen := onMenuOpen;
          sel_isClearable := negb (flag (required definition));
          sel_isDisabled := disabled definition;
          sel_isSearchable := true;
          sel_placeholder :=
            (if nonempty (placeholder definition)
             then default "" (placeholder definition)
             else t "Search" +:+ "...");
          sel_noOptionsMessage := t "No results found" |} |}.

End RelatedModelField.

(** ** ApiFormField.tsx *)

Module ApiFormField.

(** [case 'a': case 'b': ...] of a [switch] over the type tag *)
Definition tag_in (tag : option string) (cases : list string) : bool :=
  match tag with
  | Some s => existsb (String.eqb s) cases
  | None => false
  end.

(** The synchronisation effect (lines 109-116), run on mount and whenever
    [definition.value] changes. *)
Definition sync_value_effect (definition : ApiFormFieldType) : list Cmd :=
  if tag_in (field_type definition) ["nested object"] then []
  else
    (* hook up the value state to the input field *)
    if negb (strict_eq (value definition) PUndefined)
    then [FieldOnChange (value definition)]
    else [].

(** [reducedDefinition] (lines 120-128) *)
Definition reducedDefinition (definition : ApiFormFieldType) : ApiFormFieldType :=
  {| label := label definition;
     value := value definition;
     default_ := default_ definition;
     icon := icon definition;
     field_type := field_type definition;
     api_url := api_url definition;
     model := model definition;
     modelRenderer := modelRenderer definition;
     filters := filters definition;
     children := None;
     required := required definition;
     choices := choices definition;
     hidden := hidden definition;
     disabled := disabled definition;
     read_only := None;
     placeholder := placeholder definition;
     description := description definition;
     preFieldContent := preFieldContent definition;
     postFieldContent := postFieldContent definition;
     onValueChange := None;
     adjustFilters := None |}.

(** Callback helper when form value changes (lines 131-139) *)
Definition onChange (definition : ApiFormFieldType) (v : Prim) : list Cmd :=
  [FieldOnChange v] ++ call_onValueChange definition v.

(** [n ?? 0] for a number [n]: a number is never [null] or [undefined]. *)
Definition num_coalesce (n fallback : JsNumber) : JsNumber := n.

(** The cell of [useMemo(..., [value])]: the bound value the result was
    computed for, and the result. *)
Record Memo : Type := mkMemo {
  memo_dep : Prim;
  memo_result : JsNumber
}.

(** [<IconX size color onClick />] *)
Record IconX : Type := mkIconX {
  icon_size : string;
  icon_color : string;
  icon_onClick : list Cmd
}.

(** The widgets [buildField] can return.  [spread] is the object spread
    into the widget's attributes; the attributes written after it in the
    source are the remaining arguments ([ref] and the display formatter of
    the number input are left out).  The three field components of the
    repository receive the definition itself. *)
Inductive Element : Type :=
  | RelatedModelFieldEl (definition : ApiFormFieldType) (fieldName : string)
  | TextInput (spread : ApiFormFieldType) (id : string)
      (type_ : option string) (value_ : Prim) (error : option string)
      (radius : string) (onChange_ : Prim -> list Cmd)
      (rightSection : option IconX)
  | Switch (spread : ApiFormFieldType) (id : string) (radius size : string)
      (checked : Prim) (error : option string)
      (onChange_ : Prim -> list Cmd)
  | DateInput (spread : ApiFormFieldType) (id : string) (radius : string)
      (error : option string) (value_ : Prim) (clearable : bool)
      (onChange_ : Prim -> list Cmd) (valueFormat : string)
  | NumberInput (spread : ApiFormFieldType) (radius : string) (id : string)
      (value_ : JsNumber) (error : option string) (precision : Z)
      (onChange_ : Prim -> list Cmd)
  | ChoiceField (fieldName : string) (definition : ApiFormFieldType)
  | FileInput (spread : ApiFormFieldType) (id : string) (radius : string)
      (value_ : Prim) (error : option string)
      (onChange_ : Prim -> list Cmd)
  | NestedObjectField (definition : ApiFormFieldType) (fieldName : string)
  | Alert (color title : string) (children_ : list string).

(** An expression in JSX text position: [undefined] renders nothing. *)
Definition jsx_text (o : option string) : string := default "" o.

Section Renderer.

(** The two built-in parsers. *)
Variable parseInt parseFloat : Prim -> JsNumber.

(** Coerce the value to a numerical value: the function given to
    [useMemo] (lines 143-162); [raw] is the bound form value. *)
Definition coerce (definition : ApiFormFieldType) (raw : Prim) : JsNumber :=
  let val := zero in
  let val :=
    if tag_in (field_type definition) ["integer"]
    then num_coalesce (parseInt raw) zero
    else if tag_in (field_type definition) ["decimal"; "float"; "number"]
    then num_coalesce (parseFloat raw) zero
    else val in
  if isNaN val || negb (isFinite val) then zero else val.

(** The cell left by the previous render of the component; [None] at
    mount. *)
Variable previous : option Memo.

(** [numericalValue] (lines 142-163): memoised on [value] alone, so the
    function runs at mount and when the bound value differs from the one of
    the previous render; otherwise the previous result is kept, whatever
    the definition now says. *)
Definition numericalValue (definition : ApiFormFieldType) (raw : Prim) : Memo :=
  match previous with
  | Some cell =>
      if strict_eq (memo_dep cell) raw then cell
      else {| memo_dep := raw; memo_result := coerce definition raw |}
  | None => {| memo_dep := raw; memo_result := coerce definition raw |}
  end.

(** Construct the individual field (lines 166-285); [raw] is the bound
    form value [field.value], [error] is [error?.message]. *)
Definition buildField (fieldName fieldId : string)
    (definition : ApiFormFieldType) (raw : Prim) (error : option string)
  : Element :=
  let tag := field_type definition in
  if tag_in tag ["related field"] then
    RelatedModelFieldEl definition fieldName
  else if tag_in tag ["email"; "url"; "string"] then
    TextInput (reducedDefinition definition) fieldId tag
      (or_else raw (PStr "")) error "sm"
      (fun v => onChange definition v)
      (if truthy (value definition) && negb (flag (required definition))
       then Some {| icon_size := "1rem"; icon_color := "red";
                    icon_onClick := onChange definition (PStr "") |}
       else None)
  else if tag_in tag ["boolean"] then
    Switch (reducedDefinition definition) fieldId "lg" "sm"
      (coalesce raw (PBool false)) error
      (fun v => onChange definition v)
  else if tag_in tag ["date"] then
    DateInput (reducedDefinition definition) fieldId "sm" error raw
      (negb (flag (required definition)))
      (fun v => onChange definition v) "YYYY-MM-DD"
  else if tag_in tag ["integer"; "decimal"; "float"; "number"] then
    NumberInput (reducedDefinition definition) "sm" fieldId
      (memo_result (numericalValue definition raw)) error
      (if tag_in tag ["integer"] then 0 else 10)
      (fun v => onChange definition v)
  else if tag_in tag ["choice"] then
    ChoiceField fieldName definition
  else if tag_in tag ["file upload"] then
    FileInput (reducedDefinition definition) fieldId "sm" raw error
      (fun v => onChange definition v)
  else if tag_in tag ["nested object"] then
    NestedObjectField definition fieldName
  else
    Alert "red" (t "Error")
      ["Invalid field type for field '"; fieldName; "': '";
       jsx_text (field_type definition); "'"].

(** [<Stack> {pre} {buildField()} {post} </Stack>] *)
Record Stack : Type := mkStack {
  stack_pre : option Node;
  stack_field : Element;
  stack_post : option Node
}.

(** The component (lines 287-297): [None] is the [null] returned for a
    hidden field. *)
Definition ApiFormField (fieldName fieldId : string)
    (definition : ApiFormFieldType) (raw : Prim) (error : option string)
  : option Stack :=
  if flag (hidden definition) then None
  else Some {| stack_pre := preFieldContent definition;
               stack_field := buildField fieldName fieldId definition raw error;
               stack_post := postFieldContent definition |}.

(** The object spread into a widget, when the element is one of the
    widgets that take the definition's attributes. *)
Definition spread_of (e : Element) : option ApiFormFieldType :=
  match e with
  | TextInput spread _ _ _ _ _ _ _
  | Switch spread _ _ _ _ _ _
  | DateInput spread _ _ _ _ _ _ _
  | NumberInput spread _ _ _ _ _ _
  | FileInput spread _ _ _ _ _ => Some spread
  | _ => None
  end.

(** The text shown by an alert. *)
Definition alert_text (e : Element) : option string :=
  match e with
  | Alert _ _ children_ => Some (String.concat "" children_)
  | _ => None
  end.

End Renderer.

End ApiFormField.

(** ** Vocabulary of the properties *)

(** The identifiers held by an option cache, in display order. *)
Definition ids (d : list SelectOption) : list Prim := map opt_value d.

Definition item_pk (item : Obj) : Prim := prop item "pk".

(** The cache entry made for a record. *)
Definition entry (item : Obj) : SelectOption :=
  {| opt_value := coalesce (item_pk item) (PNum (-1)); opt_data := BObject item |}.

(** A record is new with respect to a list of identifiers. *)
Definition is_new (already : list Prim) (item : Obj) : bool :=
  negb (includes already (item_pk item)).

(** Number of cache entries stored under identifier [k]. *)
Definition occurrences (k : Prim) (d : list SelectOption) : nat :=
  length (List.filter (fun o => strict_eq (opt_value o) k) d).

(** The two shapes of a list response: a bare list, or a page. *)
Definition lists (response : Body) (items : list Obj) : Prop :=
  response = BArray items \/ exists rest, response = BPage items rest.

(** The cache a fulfilled list query stores, when its callback completes. *)
Definition stored (p : Promise RelatedModelField.QueryValue)
  : option (list SelectOption) :=
  match p with
  | ([SetData d], Fulfilled (RelatedModelField.QResponse _)) => Some d
  | _ => None
  end.

(** A machine holding a form, a local state and no request yet. *)
Definition machine (f : Form) (l : Local) : Machine :=
  {| form := f; local := l; requests := [] |}.

(** The definition with no attribute set. *)
Definition blank : ApiFormFieldType :=
  {| label := None; value := PUndefined; default_ := PUndefined; icon := None;
     field_type := None; api_url := None; model := None; modelRenderer := None;
     filters := None; children := None; required := None; choices := None;
     hidden := None; disabled := None; read_only := None; placeholder := None;
     description := None; preFieldContent := None; postFieldContent := None;
     onValueChange := None; adjustFilters := None |}.

(** A record [{ pk: k }] and a record without identifier. *)
Definition record (k : Z) : Obj := {[ "pk" := PNum k ]}.

Definition anonymous : Obj := {[ "name" := PStr "Widget" ]}.

(** The address of the single-record request for identifier [v]. *)
Definition detail_url (definition : ApiFormFieldType) (v : Prim) : string :=
  opt_to_string (api_url definition) +:+ to_string v +:+ "/".

(** A local state in the middle of a search: one cached option, second
    page, a query typed. *)
Definition searching : Local :=
  {| pk := PNull; offset := 10; data := [entry (record 3)];
     input := "bolt"; searchText := "bolt" |}.

(** A related-field definition pointing at a part list. *)
Definition part_field : ApiFormFieldType :=
  {| label := Some "Part"; value := PUndefined; default_ := PUndefined;
     icon := None; field_type := Some "related field";
     api_url := Some "/api/part/"; model := Some "part"; modelRenderer := None;
     filters := None; children := None; required := None; choices := None;
     hidden := None; disabled := None; read_only := None; placeholder := None;
     description := None; preFieldContent := None; postFieldContent := None;
     onValueChange := None; adjustFilters := None |}.

(** Servers used as examples: one that fails every request, one that
    answers every request with the same body. *)
Definition unreachable : Server := fun _ _ => Rejected NetworkError.

Definition answering (body : Body) : Server := fun _ _ => Fulfilled body.

(** The state reached from machine [m] when the initial-value effect runs
    for the value bound under [name] and its request has settled. *)
Definition resolved (definition : ApiFormFieldType) (server : Server)
    (name : string) (m : Machine) : Machine :=
  run name
    (fst (RelatedModelField.initial_value_effect definition server
            (prop (form m) name) (pk (local m))))
    m.

(** The machine after the list query function ran from the render of [m]
    against [server] and settled. *)
Definition queried (definition : ApiFormFieldType) (limit : Z)
    (name : string) (server : Server) (m : Machine) : Machine :=
  run name (fst (RelatedModelField.queryFn definition limit server (local m))) m.

(** A definition given by its type tag, value, required and hidden flags,
    nested definitions, resource locator and value-change callback. *)
Definition sample (tag : option string) (v : Prim) (req hid : option bool)
    (kids : option (list (string * ApiFormFieldType))) (url : option string)
    (cb : option (Prim -> Form -> Form)) : ApiFormFieldType :=
  {| label := None; value := v; default_ := PUndefined; icon := None;
     field_type := tag; api_url := url; model := None; modelRenderer := None;
     filters := None; children := kids; required := req; choices := None;
     hidden := hid; disabled := None; read_only := None; placeholder := None;
     description := None; preFieldContent := None; postFieldContent := None;
     onValueChange := cb; adjustFilters := None |}.

(** The type tags [buildField] has a case for. *)
Definition recognized : list string :=
  ["related field"; "email"; "url"; "string"; "boolean"; "date"; "integer";
   "decimal"; "float"; "number"; "choice"; "file upload"; "nested object"].

(** [part] occurs in [text]. *)
Definition contains (text part : string) : Prop :=
  exists before after, text = before +:+ part +:+ after.

(** The value attribute a widget is bound to, for the widgets bound to a
    primitive. *)
Definition bound_value (e : ApiFormField.Element) : option Prim :=
  match e with
  | ApiFormField.TextInput _ _ _ v _ _ _ _ => Some v
  | ApiFormField.Switch _ _ _ _ v _ _ => Some v
  | ApiFormField.DateInput _ _ _ _ v _ _ _ => Some v
  | ApiFormField.FileInput _ _ _ v _ _ => Some v
  | _ => None
  end.

(** The quick-clear control of a text input. *)
Definition quick_clear (e : ApiFormField.Element) : option ApiFormField.IconX :=
  match e with
  | ApiFormField.TextInput _ _ _ _ _ _ _ rightSection => rightSection
  | _ => None
  end.

(** The change handler given to a widget. *)
Definition change_handler (e : ApiFormField.Element)
  : option (Prim -> list Cmd) :=
  match e with
  | ApiFormField.TextInput _ _ _ _ _ _ h _
  | ApiFormField.Switch _ _ _ _ _ _ h
  | ApiFormField.DateInput _ _ _ _ _ _ h _
  | ApiFormField.NumberInput _ _ _ _ _ _ h
  | ApiFormField.FileInput _ _ _ _ _ h => Some h
  | _ => None
  end.

(** Two definitions agree on every attribute other than the value-change
    callback, the filter-adjustment callback, the read-only flag and the
    nested definitions. *)
Definition same_attributes (a b : ApiFormFieldType) : Prop :=
  label a = label b /\ value a = value b /\ default_ a = default_ b
  /\ icon a = icon b /\ field_type a = field_type b /\ api_url a = api_url b
  /\ model a = model b /\ modelRenderer a = modelRenderer b
  /\ filters a = filters b /\ required a = required b
  /\ choices a = choices b /\ hidden a = hidden b /\ disabled a = disabled b
  /\ placeholder a = placeholder b /\ description a = description b
  /\ preFieldContent a = preFieldContent b
  /\ postFieldContent a = postFieldContent b.

(** The form after the value-change callback of [definition], if any, ran
    with [v]. *)
Definition notified (definition : ApiFormFieldType) (v : Prim) (f : Form) : Form :=
  match onValueChange definition with
  | Some cb => cb v f
  | None => f
  end.

(** The machine after [n] renders, in each of which the menu was scrolled
    to the bottom once. *)
Fixpoint scrolled_times (limit : Z) (name : string) (n : nat) (m : Machine)
  : Machine :=
  match n with
  | O => m
  | S n' =>
      let m' := scrolled_times limit name n' m in
      run name (RelatedModelField.onMenuScrollToBottom limit (local m')) m'
  end.

(** The identifier of a cache entry is the [pk] of the record it holds,
    or -1 when the record has none. *)
Definition keyed (o : SelectOption) : Prop :=
  opt_value o = coalesce (RelatedModelField.body_pk (opt_data o)) (PNum (-1)).

(** The form-state container changed from outside the field (another
    field, a reset of the form). *)
Definition with_form (f : Form) (m : Machine) : Machine :=
  {| form := f; local := local m; requests := requests m |}.

(** The states a mounted related-entity field can be in.  The callbacks of
    a request run in the state [m] current when the answer arrives, with
    the values captured by the render [m0] that sent it. *)
Inductive reachable (definition : ApiFormFieldType) (limit : Z)
    (name : string) : Machine -> Prop :=
  | reach_mount (f : Form) :
      reachable definition limit name (machine f initial_local)
  | reach_form (f : Form) (m : Machine) :
      reachable definition limit name m ->
      reachable definition limit name (with_form f m)
  | reach_effect (server : Server) (m0 m : Machine) :
      reachable definition limit name m0 ->
      reachable definition limit name m ->
      reachable definition limit name
        (run name
           (fst (RelatedModelField.initial_value_effect definition server
                   (prop (form m0) name) (pk (local m0))))
           m)
  | reach_query (server : Server) (m0 m : Machine) :
      reachable definition limit name m0 ->
      reachable definition limit name m ->
      reachable definition limit name
        (run name
           (fst (RelatedModelField.queryFn definition limit server (local m0)))
           m)
  | reach_input (q : string) (m : Machine) :
      reachable definition limit name m ->
      reachable definition limit name
        (run name (RelatedModelField.onInputChange q) m)
  | reach_debounce (m : Machine) :
      reachable definition limit name m ->
      reachable definition limit name (debounce_settle m)
  | reach_scroll (m : Machine) :
      reachable definition limit name m ->
      reachable definition limit name
        (run name (RelatedModelField.onMenuScrollToBottom limit (local m)) m)
  | reach_open (m : Machine) :
      reachable definition limit name m ->
      reachable definition limit name (run name RelatedModelField.onMenuOpen m)
  | reach_change (v : RelatedModelField.Selected) (m : Machine) :
      reachable definition limit name m ->
      reachable definition limit name
        (run name (RelatedModelField.onChange definition v) m).

(** The filters of a definition after its filter-adjustment callback. *)
Definition adjusted_filters (definition : ApiFormFieldType) : Obj :=
  match adjustFilters definition with
  | Some f => f (default ∅ (filters definition))
  | None => default ∅ (filters definition)
  end.


(** The memo cell after a sequence of renders, each given by the
    definition and the bound value it saw, starting from the mount. *)
Definition rendered_memo (parseInt parseFloat : Prim -> JsNumber)
    (renders : list (ApiFormFieldType * Prim)) : option ApiFormField.Memo :=
  fold_left
    (fun previous render =>
       Some (ApiFormField.numericalValue parseInt parseFloat previous
               (fst render) (snd render)))
    renders None.

(** [props.children] of a widget of the generic renderer: these elements
    are self-closing. *)
Definition widget_props_children (e : ApiFormField.Element)
  : option (ChildrenProp unit) :=
  match ApiFormField.spread_of e with
  | Some spread => Some (props_children spread None)
  | None => None
  end.

(** The value and the precision of a number input. *)
Definition number_value (e : ApiFormField.Element) : option (JsNumber * Z) :=
  match e with
  | ApiFormField.NumberInput _ _ _ v _ precision _ => Some (v, precision)
  | _ => None
  end.

(** ** The option cache of a related-entity field *)

Section Option_cache.

Import RelatedModelField.

Lemma includes_elem_of (l : list Prim) (x : Prim) :
  includes l x = true <-> x ∈ l.
Proof.
  induction l as [|y l IH]; simpl.
  - split; [discriminate | intros H; inversion H].
  - rewrite orb_true_iff, IH, elem_of_cons. unfold strict_eq.
    rewrite bool_decide_eq_true. split; intros [H | H]; auto.
Qed.

Lemma includes_not_elem_of (l : list Prim) (x : Prim) :
  includes l x = false <-> x ∉ l.
Proof.
  rewrite <- includes_elem_of. destruct (includes l x); split; congruence.
Qed.

(** The loop pushes, behind the captured list, the entries of the records
    that are new with respect to the snapshot, in response order. *)
Lemma fold_push_item (already : list Prim) (items : list Obj)
    (values : list SelectOption) :
  fold_left (push_item already) items values
  = values ++ map entry (List.filter (is_new already) items).
Proof.
  revert values. induction items as [|item items IH]; intros values; simpl.
  - by rewrite app_nil_r.
  - rewrite IH. unfold push_item, is_new, item_pk.
    destruct (includes already (prop item "pk")); simpl; [done|].
    by rewrite <- app_assoc.
Qed.

Lemma list_then_lists (data_ : list SelectOption) (response : Body)
    (items : list Obj) :
  lists response items ->
  list_then data_ response
  = ([SetData (data_ ++ map entry (List.filter (is_new (ids data_)) items))],
     Fulfilled (QResponse response)).
Proof.
  intros [-> | [rest ->]]; unfold list_then; simpl;
    by rewrite fold_push_item.
Qed.

Lemma entry_value (item : Obj) :
  nullish (item_pk item) = false -> opt_value (entry item) = item_pk item.
Proof. intros H. unfold entry, coalesce. simpl. by rewrite H. Qed.

Lemma ids_new_entries (already : list Prim) (items : list Obj) :
  Forall (fun item => nullish (item_pk item) = false) items ->
  ids (map entry (List.filter (is_new already) items))
  = List.filter (fun k => negb (includes already k)) (map item_pk items).
Proof.
  induction 1 as [|item items Hpk _ IH]; simpl; [done|].
  unfold is_new at 1. destruct (includes already (item_pk item)); simpl; [done|].
  unfold ids in *. rewrite IH. f_equal. unfold coalesce. by rewrite Hpk.
Qed.

Lemma occurrences_app (k : Prim) (d1 d2 : list SelectOption) :
  occurrences k (d1 ++ d2) = (occurrences k d1 + occurrences k d2)%nat.
Proof. unfold occurrences. by rewrite List.filter_app, length_app. Qed.

Lemma occurrences_absent (k : Prim) (d : list SelectOption) :
  k ∉ ids d -> occurrences k d = 0%nat.
Proof.
  unfold occurrences, ids. induction d as [|o d IH]; simpl; [done|].
  rewrite not_elem_of_cons. intros [Hne Hd].
  unfold strict_eq at 1. rewrite bool_decide_eq_false_2 by congruence.
  by apply IH.
Qed.

Lemma elem_of_bool_filter {A} (f : A -> bool) (l : list A) (x : A) :
  x ∈ List.filter f l <-> x ∈ l /\ f x = true.
Proof. rewrite !list_elem_of_In. apply filter_In. Qed.

Lemma NoDup_bool_filter {A} (f : A -> bool) (l : list A) :
  NoDup l -> NoDup (List.filter f l).
Proof.
  induction 1 as [|x l Hx _ IH]; simpl; [constructor|].
  destruct (f x); [|done]. constructor; [|done].
  rewrite elem_of_bool_filter. tauto.
Qed.

Lemma bool_filter_none {A} (f : A -> bool) (l : list A) :
  (forall x, x ∈ l -> f x = false) -> List.filter f l = [].
Proof.
  induction l as [|x l IH]; intros H; simpl; [done|].
  rewrite (H x) by left. apply IH. intros y Hy. apply H. by right.
Qed.

End Option_cache.

Section Option_cache_claims.

Import RelatedModelField.

(** X26.  When a list response is handled whose records all carry an
    identifier, the cache stored by the [.then] callback is the cache
    captured by the render that sent the request, followed by the entries
    of the records whose identifier is not in that captured cache, in
    response order.  Hence every identifier of the captured cache has in
    the stored cache the number of entries it had in the captured one,
    handling the same response again from a render that captured the stored
    cache stores it again, and the identifiers of the stored cache are
    unique provided those of the captured cache are and the response lists
    no identifier twice.  The select lists a cache in its order. *)
Theorem option_cache_append (data_ : list SelectOption) (response : Body)
    (items : list Obj) :
  lists response items ->
  Forall (fun item => nullish (item_pk item) = false) items ->
  exists values,
    stored (list_then data_ response) = Some values
    /\ values = data_ ++ map entry (List.filter (is_new (ids data_)) items)
    /\ (forall k, k ∈ ids data_ -> occurrences k values = occurrences k data_)
    /\ stored (list_then values response) = Some values
    /\ (NoDup (ids data_) -> NoDup (map item_pk items) -> NoDup (ids values))
    /\ (forall definition fieldId error limit s,
          data s = values ->
          sel_options
            (wrapper_children (render definition fieldId error limit s))
          = values).
Proof.
  intros Hresp Hpk.
  set (news := map entry (List.filter (is_new (ids data_)) items)).
  assert (Hids : ids news
                 = List.filter (fun k => negb (includes (ids data_) k))
                     (map item_pk items))
    by (by apply ids_new_entries).
  exists (data_ ++ news). repeat split.
  - by rewrite (list_then_lists _ _ items).
  - intros k Hk. rewrite occurrences_app, (occurrences_absent k news); [lia|].
    rewrite Hids, elem_of_bool_filter, negb_true_iff, includes_not_elem_of.
    tauto.
  - rewrite (list_then_lists _ _ items) by done. simpl.
    rewrite bool_filter_none; [by rewrite app_nil_r|].
    intros item Hitem. unfold is_new. rewrite negb_false_iff.
    apply includes_elem_of. unfold ids. rewrite map_app.
    fold (ids data_) (ids news). rewrite Hids, elem_of_app, elem_of_bool_filter.
    destruct (includes (ids data_) (item_pk item)) eqn:E.
    + left. by apply includes_elem_of.
    + right. split; [|done]. apply list_elem_of_fmap. by exists item.
  - intros Hdata Hitems. unfold ids. rewrite map_app. fold (ids data_) (ids news).
    apply NoDup_app. split; [done|]. split.
    + intros k Hk. rewrite Hids, elem_of_bool_filter, negb_true_iff,
        includes_not_elem_of. tauto.
    + rewrite Hids. by apply NoDup_bool_filter.
  - by intros definition fieldId error limit s <-.
Qed.

End Option_cache_claims.

(** A render that captured the cache holding record 1 handles a page
    holding records 1 and 2. *)
Lemma option_cache_append_witness :
  lists (BPage [record 1; record 2] ∅) [record 1; record 2]
  /\ Forall (fun item => nullish (item_pk item) = false) [record 1; record 2]
  /\ exists values,
      stored (RelatedModelField.list_then [entry (record 1)]
                (BPage [record 1; record 2] ∅)) = Some values
      /\ values = [entry (record 1)]
                  ++ map entry (List.filter (is_new (ids [entry (record 1)]))
                                  [record 1; record 2])
      /\ (forall k, k ∈ ids [entry (record 1)] ->
            occurrences k values = occurrences k [entry (record 1)])
      /\ stored (RelatedModelField.list_then values
                   (BPage [record 1; record 2] ∅)) = Some values
      /\ (NoDup (ids [entry (record 1)]) ->
          NoDup (map item_pk [record 1; record 2]) -> NoDup (ids values))
      /\ (forall definition fieldId error limit s,
            data s = values ->
            RelatedModelField.sel_options
              (RelatedModelField.wrapper_children
                 (RelatedModelField.render definition fieldId error limit s))
            = values).
Proof.
  assert (H1 : lists (BPage [record 1; record 2] ∅) [record 1; record 2])
    by (right; eexists; reflexivity).
  assert (H2 : Forall (fun item => nullish (item_pk item) = false)
                 [record 1; record 2])
    by (repeat constructor).
  split; [exact H1|]. split; [exact H2|].
  exact (option_cache_append [entry (record 1)] _ _ H1 H2).
Defined.

(** C1, the code at the failing input.  The claim is that identifiers are
    unique within the option cache and that appending leaves one entry per
    identifier.  A page that lists record 7 twice, handled by a render
    whose cache is empty (its identifiers are trivially unique), stores two
    entries under identifier 7: the loop tests each record against the
    identifiers captured before it started. *)
Lemma option_cache_duplicates :
  NoDup (ids [])
  /\ stored (RelatedModelField.list_then [] (BPage [record 7; record 7] ∅))
     = Some [entry (record 7); entry (record 7)]
  /\ ids [entry (record 7); entry (record 7)] = [PNum 7; PNum 7]
  /\ occurrences (PNum 7) [entry (record 7); entry (record 7)] = 2%nat
  /\ ~ NoDup (ids [entry (record 7); entry (record 7)]).
Proof.
  split; [constructor|]. split; [reflexivity|]. split; [reflexivity|].
  split; [reflexivity|].
  intros H. apply NoDup_cons in H as [H _]. apply H. left.
Qed.

(** A record without identifier is stored under identifier -1 every time
    it is received. *)
Lemma option_cache_anonymous_twice :
  stored (RelatedModelField.list_then [] (BArray [anonymous]))
  = Some [entry anonymous]
  /\ stored (RelatedModelField.list_then [entry anonymous] (BArray [anonymous]))
     = Some [entry anonymous; entry anonymous]
  /\ ids [entry anonymous; entry anonymous] = [PNum (-1); PNum (-1)].
Proof. repeat split. Qed.

(** ** Opening the menu *)

Section Menu_open.

Import RelatedModelField.

(** C2 (as amended).  Opening the menu sets the typed query to the empty
    string (the debounced search text follows when the timer fires) and
    the offset to 0, and asks the list query to fetch again; the option
    list is left as it is at that point, as are the selection and the
    form. *)
Theorem menu_open_resets_query (name : string) (m : Machine) :
  let m' := run name onMenuOpen m in
  input (local m') = ""
  /\ searchText (local (debounce_settle m')) = ""
  /\ offset (local m') = 0
  /\ requests m' = requests m ++ [ReqRefetch]
  /\ data (local m') = data (local m)
  /\ pk (local m') = pk (local m)
  /\ form m' = form m.
Proof. cbn. by repeat split. Qed.

End Menu_open.

Lemma menu_open_resets_query_witness :
  let m' := run "part" RelatedModelField.onMenuOpen (machine ∅ searching) in
  input (local m') = ""
  /\ searchText (local (debounce_settle m')) = ""
  /\ offset (local m') = 0
  /\ requests m' = [ReqRefetch]
  /\ data (local m') = [entry (record 3)]
  /\ pk (local m') = PNull
  /\ form m' = ∅.
Proof. exact (menu_open_resets_query "part" (machine ∅ searching)). Defined.

(** C2, counterexample.  With one option loaded under the query "bolt",
    opening the menu leaves that option in the list. *)
Lemma menu_open_keeps_options :
  data (local (machine ∅ searching)) = [entry (record 3)]
  /\ data (local (run "part" RelatedModelField.onMenuOpen (machine ∅ searching)))
     = [entry (record 3)]
  /\ data (local (run "part" RelatedModelField.onMenuOpen (machine ∅ searching)))
     <> [].
Proof. repeat split. discriminate. Qed.

(** ** Resolving an externally bound value *)

Section Initial_value.

Import RelatedModelField.

Variable definition : ApiFormFieldType.
Variable server : Server.
Variable name : string.

#[local] Abbreviation resolved := (resolved definition server name).

Lemma initial_value_effect_fetch (field_value pk_ : Prim) :
  field_value <> pk_ -> field_value <> PNull ->
  initial_value_effect definition server field_value pk_
  = then_ (api_get server (detail_url definition field_value) None)
      (fun data =>
         if body_truthy data && truthy (body_pk data)
         then ([SetData [{| opt_value := body_pk data; opt_data := data |}];
                SetPk (body_pk data)], Fulfilled tt)
         else resolve tt).
Proof.
  intros Hpk Hnull. unfold initial_value_effect, strict_eq.
  by rewrite !bool_decide_eq_false_2.
Qed.

(** C6 (as amended).  When the value bound under the field's name is not
    [null] and differs from the tracked selection, the effect issues
    exactly one request, for the single record under that identifier.  If
    the request succeeds with a record whose [pk] is truthy, the cache
    becomes exactly that record and the selection its [pk]; if it fails, or
    answers without such a record, cache and selection stay as they were.
    When the bound value is [null], no request is issued, the selection is
    [null] afterwards and the cache is unchanged. *)
Theorem initial_value_resolution (m : Machine) :
  let field_value := prop (form m) name in
  let url := detail_url definition field_value in
  (field_value <> PNull -> field_value <> pk (local m) ->
     requests (resolved m) = requests m ++ [ReqGet url None]
     /\ (forall body,
           server url None = Fulfilled body ->
           body_truthy body = true -> truthy (body_pk body) = true ->
           data (local (resolved m))
           = [{| opt_value := body_pk body; opt_data := body |}]
           /\ pk (local (resolved m)) = body_pk body)
     /\ ((forall body,
            server url None = Fulfilled body ->
            body_truthy body && truthy (body_pk body) = false) ->
         data (local (resolved m)) = data (local m)
         /\ pk (local (resolved m)) = pk (local m)))
  /\ (field_value = PNull ->
      requests (resolved m) = requests m
      /\ pk (local (resolved m)) = PNull
      /\ data (local (resolved m)) = data (local m)).
Proof.
  cbn zeta. split.
  - intros Hnull Hpk. unfold resolved.
    rewrite initial_value_effect_fetch by done.
    unfold then_, api_get.
    destruct (server (detail_url definition (prop (form m) name)) None)
      as [body|e] eqn:Hreply.
    + destruct (body_truthy body && truthy (body_pk body)) eqn:Hok; cbn.
      * split; [done|]. split.
        -- by intros body' [= <-] _ _.
        -- intros H. specialize (H body eq_refl). congruence.
      * split; [done|]. split.
        -- intros body' [= <-] H1 H2. rewrite H1, H2 in Hok. discriminate.
        -- done.
    + cbn. split; [done|]. split; [intros ? [=] | done].
  - intros Hnull. unfold resolved, initial_value_effect. rewrite Hnull.
    unfold strict_eq. case_bool_decide as Hpk; cbn.
    + by rewrite <- Hpk.
    + done.
Qed.

End Initial_value.

(** The form binds part 42, nothing is selected yet, and the server
    answers with record 42. *)
Lemma initial_value_resolution_witness :
  let m := machine {[ "part" := PNum 42 ]} initial_local in
  let m' := resolved part_field (answering (BObject (record 42))) "part" m in
  requests m' = [ReqGet "/api/part/42/" None]
  /\ data (local m')
     = [{| opt_value := PNum 42; opt_data := BObject (record 42) |}]
  /\ pk (local m') = PNum 42.
Proof.
  intros m m'.
  destruct (initial_value_resolution part_field
              (answering (BObject (record 42))) "part" m) as [Hfetch _].
  destruct Hfetch as (Hreq & Hseed & _);
    [vm_compute; discriminate | vm_compute; discriminate |].
  split; [exact Hreq|].
  apply (Hseed (BObject (record 42))); reflexivity.
Defined.

(** C6, counterexample.  The form binds part 42 and the request succeeds,
    but the record in the answer has no [pk]: the cache is not seeded and
    nothing is selected.  The same happens for a record whose [pk] is 0. *)
Lemma initial_value_not_seeded :
  let m := machine {[ "part" := PNum 42 ]} initial_local in
  let m' := resolved part_field (answering (BObject anonymous)) "part" m in
  let m0 := machine {[ "part" := PNum 0 ]} initial_local in
  let m0' := resolved part_field (answering (BObject (record 0))) "part" m0 in
  (requests m' = [ReqGet "/api/part/42/" None]
   /\ data (local m') = []
   /\ data (local m') <> [{| opt_value := PUndefined; opt_data := BObject anonymous |}]
   /\ pk (local m') = PNull)
  /\ (requests m0' = [ReqGet "/api/part/0/" None]
      /\ data (local m0') = []
      /\ data (local m0') <> [{| opt_value := PNum 0; opt_data := BObject (record 0) |}]
      /\ pk (local m0') = PNull
      /\ pk (local m0') <> PNum 0).
Proof. vm_compute. repeat split; discriminate. Qed.

(** ** Failure of a list search *)

Section List_failure.

Import RelatedModelField.

Variable definition : ApiFormFieldType.
Variable limit : Z.
Variable name fieldId : string.

#[local] Abbreviation queried := (queried definition limit name).

Lemma queryFn_request (server : Server) (s : Local) (url : string) :
  api_url definition = Some url -> url <> "" ->
  queryFn definition limit server s
  = catch_
      (then_ (api_get server url (Some (query_params definition limit s)))
             (list_then (data s)))
      list_catch.
Proof.
  intros Hurl Hne. unfold queryFn. rewrite Hurl.
  destruct (String.eqb_spec url ""); [done|reflexivity].
Qed.

(** Every run of the query function sends one list request, whatever the
    outcome of earlier ones. *)
Lemma queryFn_sends (server : Server) (m : Machine) (url : string) :
  api_url definition = Some url -> url <> "" ->
  requests (queried server m)
  = requests m ++ [ReqGet url (Some (query_params definition limit (local m)))].
Proof.
  intros Hurl Hne. unfold queried. rewrite (queryFn_request _ _ url) by done.
  unfold api_get, then_, catch_.
  destruct (server url _) as [body|e]; cbn.
  - destruct (list_then (data (local m)) body) as [cs [v|e]] eqn:Hthen.
    + unfold list_then in Hthen.
      destruct (for_each_push _ _ _); [|discriminate].
      injection Hthen as <- _. reflexivity.
    + unfold list_then in Hthen.
      destruct (for_each_push _ _ _); [discriminate|].
      injection Hthen as <- _. reflexivity.
  - reflexivity.
Qed.

(** C9.  When the list request of a field with a resource locator is
    rejected, the query function still settles normally (with the error as
    its value), the option list becomes empty, and query text, offset,
    selection and form are untouched.  Nothing blocks a further attempt:
    scrolling moves the offset by the page size and typing sets a new
    search text at offset 0, either of which gives the query a new key
    (for a non-zero page size, resp. a different text), and the query
    function run from the new state sends a request again. *)
Theorem list_failure_clears_options (server : Server) (m : Machine)
    (url : string) (e : Error) :
  api_url definition = Some url -> url <> "" ->
  server url (Some (query_params definition limit (local m))) = Rejected e ->
  let m' := queried server m in
  snd (queryFn definition limit server (local m)) = Fulfilled (QError e)
  /\ data (local m') = []
  /\ (input (local m'), searchText (local m'), offset (local m'), pk (local m'))
     = (input (local m), searchText (local m), offset (local m), pk (local m))
  /\ form m' = form m
  /\ (let scrolled := run name (onMenuScrollToBottom limit (local m')) m' in
      queryKey name fieldId (local scrolled)
      = ("related-field-" +:+ name, fieldId, offset (local m) + limit,
         searchText (local m))
      /\ (limit <> 0 ->
          queryKey name fieldId (local scrolled)
          <> queryKey name fieldId (local m'))
      /\ forall server',
           requests (queried server' scrolled)
           = requests scrolled
             ++ [ReqGet url (Some (query_params definition limit (local scrolled)))])
  /\ (forall q,
        let typed := debounce_settle (run name (onInputChange q) m') in
        queryKey name fieldId (local typed)
        = ("related-field-" +:+ name, fieldId, 0, q)
        /\ (q <> searchText (local m) ->
            queryKey name fieldId (local typed)
            <> queryKey name fieldId (local m'))
        /\ forall server',
             requests (queried server' typed)
             = requests typed
               ++ [ReqGet url (Some (query_params definition limit (local typed)))]).
Proof.
  intros Hurl Hne Hfail m'.
  assert (Hq : queryFn definition limit server (local m)
               = ([ApiGet url (Some (query_params definition limit (local m)));
                   SetData []], Fulfilled (QError e))).
  { rewrite (queryFn_request _ _ url) by done.
    unfold api_get, then_, catch_. by rewrite Hfail. }
  assert (Hm : m' = run name
                      [ApiGet url (Some (query_params definition limit (local m)));
                       SetData []] m)
    by (subst m'; unfold queried; by rewrite Hq).
  clearbody m'. subst m'. rewrite Hq. cbn.
  split; [done|]. split; [done|]. split; [done|]. split; [done|]. split.
  - split; [done|]. split.
    + unfold queryKey. cbn. intros Hlimit [=]. lia.
    + intros server'. by apply queryFn_sends.
  - intros q. split; [done|]. split.
    + unfold queryKey. cbn. intros Hq' [=]. congruence.
    + intros server'. by apply queryFn_sends.
Qed.

End List_failure.

(** The request of a part field fails while one option is loaded. *)
Lemma list_failure_clears_options_witness :
  let m := machine ∅ searching in
  let m' := queried part_field 10 "part" unreachable m in
  snd (RelatedModelField.queryFn part_field 10 unreachable (local m))
  = Fulfilled (RelatedModelField.QError NetworkError)
  /\ data (local m) = [entry (record 3)]
  /\ data (local m') = [].
Proof.
  intros m m'.
  destruct (list_failure_clears_options part_field 10 "part" "field-1"
              unreachable m "/api/part/" NetworkError)
    as (Hsettled & Hdata & _); [reflexivity | discriminate | reflexivity |].
  split; [exact Hsettled|]. split; [reflexivity | exact Hdata].
Defined.

(** A response whose body cannot be iterated fails inside the [.then]
    callback and ends in the same way. *)
Lemma list_not_iterable_clears_options :
  RelatedModelField.queryFn part_field 10 (answering (BObject anonymous)) searching
  = ([ApiGet "/api/part/"
        (Some (RelatedModelField.query_params part_field 10 searching));
      SetData []],
     Fulfilled (RelatedModelField.QError TypeError)).
Proof. reflexivity. Qed.

(** ** The generic renderer *)

Section Generic_renderer.

Import ApiFormField.

Variable parseInt parseFloat : Prim -> JsNumber.
Variable previous : option Memo.

#[local] Abbreviation coerce := (coerce parseInt parseFloat).
#[local] Abbreviation numericalValue :=
  (numericalValue parseInt parseFloat previous).
#[local] Abbreviation buildField := (buildField parseInt parseFloat previous).
#[local] Abbreviation ApiFormField := (ApiFormField parseInt parseFloat previous).

Lemma string_append_assoc (a b c : string) :
  (a +:+ b) +:+ c = a +:+ b +:+ c.
Proof.
  induction a as [|ch a IH]; [done|].
  change (String ch ((a +:+ b) +:+ c) = String ch (a +:+ b +:+ c)).
  by rewrite IH.
Qed.

Lemma tag_in_inv (tag : option string) (cases : list string) :
  tag_in tag cases = true -> exists s, tag = Some s /\ s ∈ cases.
Proof.
  destruct tag as [s|]; [|discriminate]. simpl. intros H.
  apply existsb_exists in H as (c & Hc & Heq).
  apply String.eqb_eq in Heq as <-. exists s. split; [done|].
  by apply list_elem_of_In.
Qed.

Lemma tag_in_subset (tag : option string) (small big : list string) :
  tag_in tag big = false ->
  forallb (fun c => existsb (String.eqb c) big) small = true ->
  tag_in tag small = false.
Proof.
  intros Hbig Hsub. destruct (tag_in tag small) eqn:Hsmall; [|done].
  apply tag_in_inv in Hsmall as (s & -> & Hs).
  simpl in Hbig. rewrite <- Hbig. symmetry.
  rewrite forallb_forall in Hsub. apply Hsub. by apply list_elem_of_In.
Qed.

(** Decides the case a tag falls in, by evaluating the [switch] of
    [buildField] once the tag is known. *)
Ltac known_tag H :=
  apply tag_in_inv in H as (? & H & Hcase);
  repeat (apply elem_of_cons in Hcase as [-> | Hcase]);
  [.. | by apply elem_of_nil in Hcase].



Lemma buildField_unrecognized (fieldName fieldId : string)
    (definition : ApiFormFieldType) (raw : Prim) (error : option string) :
  tag_in (field_type definition) recognized = false ->
  buildField fieldName fieldId definition raw error
  = Alert "red" (t "Error")
      ["Invalid field type for field '"; fieldName; "': '";
       jsx_text (field_type definition); "'"].
Proof.
  intros H. unfold ApiFormField.buildField.
  repeat match goal with
         | |- context [tag_in _ ?cases] =>
             rewrite (tag_in_subset _ cases _ H eq_refl)
         end.
  reflexivity.
Qed.

(** C4 (as amended).  For a definition whose type tag is none of the
    recognized ones, [buildField] returns (it is a total function) a red
    alert whose text is "Invalid field type for field '<name>': '<tag>'",
    which contains the field's name and the tag (nothing stands for an
    absent tag).  The component shows it, between the pre- and post-field
    content, when the definition is not hidden; a hidden definition renders
    nothing at all. *)
Theorem invalid_field_type_alert (fieldName fieldId : string)
    (definition : ApiFormFieldType) (raw : Prim) (error : option string) :
  tag_in (field_type definition) recognized = false ->
  let text := "Invalid field type for field '" +:+ fieldName +:+ "': '"
              +:+ jsx_text (field_type definition) +:+ "'" in
  let alert := buildField fieldName fieldId definition raw error in
  alert = Alert "red" (t "Error")
            ["Invalid field type for field '"; fieldName; "': '";
             jsx_text (field_type definition); "'"]
  /\ alert_text alert = Some text
  /\ contains text fieldName
  /\ contains text (jsx_text (field_type definition))
  /\ (flag (hidden definition) = false ->
      ApiFormField fieldName fieldId definition raw error
      = Some {| stack_pre := preFieldContent definition;
                stack_field := alert;
                stack_post := postFieldContent definition |})
  /\ (flag (hidden definition) = true ->
      ApiFormField fieldName fieldId definition raw error = None).
Proof.
  intros Htag text alert. subst alert.
  rewrite buildField_unrecognized by done.
  split; [done|]. split; [done|]. split; [|split; [|split]].
  - by exists "Invalid field type for field '",
              ("': '" +:+ jsx_text (field_type definition) +:+ "'").
  - exists ("Invalid field type for field '" +:+ fieldName +:+ "': '"), "'".
    subst text. by rewrite !string_append_assoc.
  - intros Hhidden. unfold ApiFormField.ApiFormField. rewrite Hhidden.
    by rewrite buildField_unrecognized.
  - intros Hhidden. unfold ApiFormField.ApiFormField. by rewrite Hhidden.
Qed.

(** The quick-clear control of a text input depends on the definition
    alone: it is there exactly when [definition.value] is truthy and the
    field is not required, whatever value the input is bound to; and
    activating it runs [onChange('')]. *)
Lemma quick_clear_rendered (fieldName fieldId : string)
    (definition : ApiFormFieldType) (raw : Prim) (error : option string) :
  tag_in (field_type definition) ["email"; "url"; "string"] = true ->
  quick_clear (buildField fieldName fieldId definition raw error)
  = if truthy (value definition) && negb (flag (required definition))
    then Some {| icon_size := "1rem"; icon_color := "red";
                 icon_onClick := ApiFormField.onChange definition (PStr "") |}
    else None.
Proof.
  intros H. unfold ApiFormField.buildField. known_tag H; by rewrite H.
Qed.

(** A required text field never shows the control. *)
Lemma quick_clear_required (fieldName fieldId : string)
    (definition : ApiFormFieldType) (raw : Prim) (error : option string) :
  tag_in (field_type definition) ["email"; "url"; "string"] = true ->
  required definition = Some true ->
  quick_clear (buildField fieldName fieldId definition raw error) = None.
Proof.
  intros H Hreq. rewrite quick_clear_rendered by done.
  rewrite Hreq. simpl. by rewrite andb_false_r.
Qed.

(** Activating the control binds the empty string under the field's name
    (before any value-change callback runs). *)
Lemma quick_clear_activated (name : string) (definition : ApiFormFieldType)
    (m : Machine) :
  form (run name (ApiFormField.onChange definition (PStr "")) m)
  = notified definition (PStr "") (<[name := PStr ""]> (form m)).
Proof.
  unfold ApiFormField.onChange, call_onValueChange, notified.
  by destruct (onValueChange definition).
Qed.

Lemma reducedDefinition_attributes (definition : ApiFormFieldType) :
  onValueChange (reducedDefinition definition) = None
  /\ adjustFilters (reducedDefinition definition) = None
  /\ read_only (reducedDefinition definition) = None
  /\ children (reducedDefinition definition) = None
  /\ same_attributes (reducedDefinition definition) definition.
Proof. unfold same_attributes. by repeat split. Qed.

Lemma spread_of_buildField (fieldName fieldId : string)
    (definition : ApiFormFieldType) (raw : Prim) (error : option string)
    (spread : ApiFormFieldType) :
  spread_of (buildField fieldName fieldId definition raw error) = Some spread ->
  spread = reducedDefinition definition.
Proof.
  unfold ApiFormField.buildField.
  repeat match goal with
         | |- context [if ?b then _ else _] => destruct b
         end; simpl; congruence.
Qed.

(** C7 (as amended).  In the generic renderer the object spread into a
    widget is the definition with the value-change callback, the
    filter-adjustment callback, the read-only flag and the nested
    definitions set to [undefined] and every other attribute unchanged; the
    text, boolean, date, numeric and file widgets all receive it, and
    receive no children.  In the related-entity field the object spread
    into the wrapper has the two callbacks and the read-only flag set to
    [undefined] and every other attribute unchanged; it still holds the
    nested definitions, but the children the wrapper receives are its own
    JSX child, the select.  So in neither component does one of the four
    attributes of the definition reach the widget. *)
Theorem widget_attributes (fieldName fieldId : string)
    (definition : ApiFormFieldType) (raw : Prim) (error : option string)
    (limit : Z) (s : Local) :
  let widget := buildField fieldName fieldId definition raw error in
  let wrapper := RelatedModelField.render definition fieldId error limit s in
  (forall spread, spread_of widget = Some spread ->
                  spread = reducedDefinition definition)
  /\ (tag_in (field_type definition)
        ["email"; "url"; "string"; "boolean"; "date"; "integer"; "decimal";
         "float"; "number"; "file upload"] = true ->
      spread_of widget = Some (reducedDefinition definition))
  /\ (onValueChange (reducedDefinition definition) = None
      /\ adjustFilters (reducedDefinition definition) = None
      /\ read_only (reducedDefinition definition) = None
      /\ children (reducedDefinition definition) = None
      /\ same_attributes (reducedDefinition definition) definition)
  /\ (forall received, widget_props_children widget = Some received ->
                       received = NoChildren)
  /\ (onValueChange (RelatedModelField.wrapper_spread wrapper) = None
      /\ adjustFilters (RelatedModelField.wrapper_spread wrapper) = None
      /\ read_only (RelatedModelField.wrapper_spread wrapper) = None
      /\ children (RelatedModelField.wrapper_spread wrapper) = children definition
      /\ same_attributes (RelatedModelField.wrapper_spread wrapper) definition)
  /\ (RelatedModelField.wrapper_props_children wrapper
      = JsxChild (RelatedModelField.wrapper_children wrapper)
      /\ forall nested,
           RelatedModelField.wrapper_props_children wrapper
           <> SpreadChildren nested).
Proof.
  cbn zeta. split; [|split; [|split; [|split; [|split]]]].
  - apply spread_of_buildField.
  - intros H. unfold ApiFormField.buildField. known_tag H; by rewrite H.
  - apply reducedDefinition_attributes.
  - intros received. unfold widget_props_children.
    destruct (spread_of _) as [spread|] eqn:Hspread; [|done].
    apply spread_of_buildField in Hspread as ->. by intros [= <-].
  - unfold same_attributes. by repeat split.
  - split; [reflexivity | discriminate].
Qed.

(** C8.  The change handler handed to every widget of the generic renderer
    is [onChange]: called with the new value [v] it first writes [v] under
    the field's name and then, if the definition has a value-change
    callback, calls it with [v], so that the callback runs on the form that
    already holds [v].  The handler of the related-entity field does the
    same with the new value of a selection, the identifier [p] of the
    selected option ([null] when the selection is cleared): it first writes
    [p] under the field's name, records [p] as the selection, and then
    calls the callback with [p]. *)
Theorem onChange_writes_then_notifies (name fieldId : string)
    (definition : ApiFormFieldType) (raw v : Prim) (error : option string)
    (selected : RelatedModelField.Selected) (limit : Z) (m : Machine) :
  let widget := buildField name fieldId definition raw error in
  let select :=
    RelatedModelField.wrapper_children
      (RelatedModelField.render definition fieldId error limit (local m)) in
  let p := coalesce (RelatedModelField.selected_value selected) PNull in
  (forall handler, change_handler widget = Some handler ->
                   handler v = ApiFormField.onChange definition v)
  /\ ApiFormField.onChange definition v
     = FieldOnChange v
       :: match onValueChange definition with
          | Some cb => [OnValueChange cb v]
          | None => []
          end
  /\ form (run name (ApiFormField.onChange definition v) m)
     = notified definition v (<[name := v]> (form m))
  /\ RelatedModelField.sel_onChange select selected
     = FieldOnChange p :: SetPk p
       :: match onValueChange definition with
          | Some cb => [OnValueChange cb p]
          | None => []
          end
  /\ form (run name (RelatedModelField.sel_onChange select selected) m)
     = notified definition p (<[name := p]> (form m))
  /\ pk (local (run name (RelatedModelField.sel_onChange select selected) m)) = p.
Proof.
  cbn zeta. split; [|split; [|split; [|split; [|split]]]].
  - intros handler. unfold ApiFormField.buildField.
    repeat match goal with
           | |- context [if ?b then _ else _] => destruct b
           end; simpl; intros [= <-] || discriminate; reflexivity.
  - reflexivity.
  - unfold ApiFormField.onChange, call_onValueChange, notified.
    by destruct (onValueChange definition).
  - reflexivity.
  - cbn. unfold RelatedModelField.onChange, call_onValueChange, notified.
    by destruct (onValueChange definition).
  - cbn. unfold RelatedModelField.onChange, call_onValueChange.
    by destruct (onValueChange definition).
Qed.

(** C10.  When the definition carries no value, the synchronisation effect
    issues no command and leaves the machine, hence the bound form value,
    as it is.  Whenever the effect does change the form, the definition's
    value is defined, the field is not a nested object, and the change is
    the binding of that value under the field's name. *)
Theorem sync_effect_needs_value (name : string)
    (definition : ApiFormFieldType) (m : Machine) :
  (value definition = PUndefined ->
   sync_value_effect definition = []
   /\ run name (sync_value_effect definition) m = m)
  /\ (form (run name (sync_value_effect definition) m) <> form m ->
      value definition <> PUndefined
      /\ tag_in (field_type definition) ["nested object"] = false
      /\ form (run name (sync_value_effect definition) m)
         = <[name := value definition]> (form m)).
Proof.
  unfold sync_value_effect, strict_eq. split.
  - intros ->. destruct (tag_in _ _); [done|].
    by rewrite bool_decide_eq_true_2.
  - destruct (tag_in _ _); [done|].
    case_bool_decide as Hv; simpl; [done|]. by intros _.
Qed.

End Generic_renderer.

(** ** The properties at concrete fields *)



(** A visible field of type "colour". *)
Lemma invalid_field_type_alert_witness :
  let definition := sample (Some "colour") PUndefined None None None None None in
  ApiFormField.ApiFormField Builtins.parseInt Builtins.parseFloat None
    "shade" "field-1" definition PUndefined None
  = Some {| ApiFormField.stack_pre := None;
            ApiFormField.stack_field :=
              ApiFormField.Alert "red" "Error"
                ["Invalid field type for field '"; "shade"; "': '"; "colour"; "'"];
            ApiFormField.stack_post := None |}
  /\ ApiFormField.alert_text
       (ApiFormField.buildField Builtins.parseInt Builtins.parseFloat None
          "shade" "field-1" definition PUndefined None)
     = Some "Invalid field type for field 'shade': 'colour'".
Proof.
  intros definition.
  destruct (invalid_field_type_alert Builtins.parseInt Builtins.parseFloat None
              "shade" "field-1" definition PUndefined None eq_refl)
    as (_ & Htext & _ & _ & Hshown & _).
  split; [exact (Hshown eq_refl) | exact Htext].
Defined.

(** C4, counterexample.  A hidden field of type "colour" renders nothing,
    so no error indicator is shown for it. *)
Lemma hidden_invalid_field_renders_nothing :
  let definition :=
    sample (Some "colour") PUndefined None (Some true) None None None in
  ApiFormField.tag_in (field_type definition) recognized = false
  /\ ApiFormField.ApiFormField Builtins.parseInt Builtins.parseFloat None
       "shade" "field-1" definition PUndefined None
     = None.
Proof. split; reflexivity. Qed.

(** C5, the code at the failing input.  An optional text field whose
    definition carries no value, bound to "foo" (the user typed it): the
    input shows "foo" and no quick-clear control is rendered.  Conversely,
    when the definition carries "foo" and the bound value has been cleared,
    the control is still rendered. *)
Lemma quick_clear_ignores_bound_value :
  let typed := sample (Some "string") PUndefined (Some false) None None None None in
  let preset := sample (Some "string") (PStr "foo") (Some false) None None None None in
  let render definition raw :=
    ApiFormField.buildField Builtins.parseInt Builtins.parseFloat None
      "name" "field-1" definition raw None in
  (bound_value (render typed (PStr "foo")) = Some (PStr "foo")
   /\ quick_clear (render typed (PStr "foo")) = None)
  /\ (bound_value (render preset (PStr "")) = Some (PStr "")
      /\ quick_clear (render preset (PStr ""))
         = Some {| ApiFormField.icon_size := "1rem";
                   ApiFormField.icon_color := "red";
                   ApiFormField.icon_onClick := [FieldOnChange (PStr "")] |}).
Proof. repeat split. Qed.

(** A text field with a value-change callback, and the same definition as
    a related-entity field. *)
Lemma widget_attributes_witness :
  let definition :=
    sample (Some "string") (PStr "M3") None None (Some [("unit", blank)])
      None (Some (fun v f => <["changed" := v]> f)) in
  ApiFormField.spread_of
    (ApiFormField.buildField Builtins.parseInt Builtins.parseFloat None
       "name" "field-1" definition (PStr "M3") None)
  = Some (ApiFormField.reducedDefinition definition)
  /\ children (ApiFormField.reducedDefinition definition) = None
  /\ onValueChange (ApiFormField.reducedDefinition definition) = None.
Proof.
  intros definition.
  destruct (widget_attributes Builtins.parseInt Builtins.parseFloat None
              "name" "field-1" definition (PStr "M3") None 10 initial_local)
    as (_ & Hwidget & (Hcb & _ & _ & Hkids & _) & _).
  split; [exact (Hwidget eq_refl) | split; [exact Hkids | exact Hcb]].
Defined.

(** C7, counterexample.  A related-entity definition with nested
    definitions: the object spread into the wrapper is not the definition
    with the four attributes removed, it still has the nested
    definitions. *)
Lemma related_field_keeps_children :
  let definition :=
    sample (Some "related field") PUndefined None None (Some [("unit", blank)])
      (Some "/api/part/") None in
  children
    (RelatedModelField.wrapper_spread
       (RelatedModelField.render definition "field-1" None 10 initial_local))
  = Some [("unit", blank)]
  /\ children
       (RelatedModelField.wrapper_spread
          (RelatedModelField.render definition "field-1" None 10 initial_local))
     <> None.
Proof. split; [reflexivity | discriminate]. Qed.

(** A text field notifying a callback that copies the value to another
    field, and a selection of record 5 in a related-entity field. *)
Lemma onChange_writes_then_notifies_witness :
  let copy : Prim -> Form -> Form := fun v f => <["copy" := v]> f in
  let definition :=
    sample (Some "string") PUndefined None None None None (Some copy) in
  let m := machine ∅ initial_local in
  form (run "name" (ApiFormField.onChange definition (PStr "M3")) m)
  = <["copy" := PStr "M3"]> (<["name" := PStr "M3"]> ∅)
  /\ form (run "name"
             (RelatedModelField.onChange definition
                (RelatedModelField.SelOption (entry (record 5)))) m)
     = <["copy" := PNum 5]> (<["name" := PNum 5]> ∅).
Proof.
  intros copy definition m.
  destruct (onChange_writes_then_notifies Builtins.parseInt Builtins.parseFloat None
              "name" "field-1" definition PUndefined (PStr "M3") None
              (RelatedModelField.SelOption (entry (record 5))) 10 m)
    as (_ & _ & Hgeneric & _ & Hrelated & _).
  split; [exact Hgeneric | exact Hrelated].
Defined.

(** The user typed "edited" into a field whose definition carries no
    value. *)
Lemma sync_effect_needs_value_witness :
  let definition := sample (Some "string") PUndefined None None None None None in
  let m := machine {[ "name" := PStr "edited" ]} initial_local in
  run "name" (ApiFormField.sync_value_effect definition) m = m
  /\ form (run "name" (ApiFormField.sync_value_effect definition) m) !! "name"
     = Some (PStr "edited").
Proof.
  intros definition m.
  destruct (sync_effect_needs_value "name" definition m) as [Hkeep _].
  destruct (Hkeep eq_refl) as [_ Hrun].
  split; [exact Hrun | by rewrite Hrun].
Defined.

(** ** Further properties of the related-entity field *)

Section Related_selection.

Import RelatedModelField.

Lemma strict_eq_true (a b : Prim) : strict_eq a b = true <-> a = b.
Proof. apply bool_decide_eq_true. Qed.

Lemma strict_eq_false (a b : Prim) : strict_eq a b = false <-> a <> b.
Proof. apply bool_decide_eq_false. Qed.

Lemma strict_eq_refl (a : Prim) : strict_eq a a = true.
Proof. by apply strict_eq_true. Qed.

Lemma truthy_not_nullish (v : Prim) : truthy v = true -> nullish v = false.
Proof. by destruct v. Qed.

Lemma not_nullish_not_null (v : Prim) : nullish v = false -> v <> PNull.
Proof. by destruct v. Qed.

(** X1.  The value handed to the select is [false] when the selection is
    [null]; it is an option only if that option is an entry of the cache
    whose identifier is the selection, and it is one whenever the selection
    is not [null] and some cache entry carries it; it is [undefined] when
    the selection is not [null] and no cache entry carries it. *)
Theorem currentValue_three_results (s : Local) :
  (pk s = PNull -> currentValue s = CurrentFalse)
  /\ (forall o, currentValue s = CurrentOption o ->
                pk s <> PNull /\ opt_value o = pk s /\ o ∈ data s)
  /\ (pk s <> PNull -> pk s ∈ ids (data s) ->
      exists o, currentValue s = CurrentOption o)
  /\ (pk s <> PNull -> pk s ∉ ids (data s) ->
      currentValue s = CurrentUndefined).
Proof.
  unfold currentValue. split; [|split; [|split]].
  - intros ->. by rewrite strict_eq_refl.
  - intros o. destruct (strict_eq (pk s) PNull) eqn:Hnull; simpl; [done|].
    destruct (List.find _ _) as [o'|] eqn:Hfind; [|done]. intros [= <-].
    apply find_some in Hfind as [Hin Heq].
    split; [by apply strict_eq_false|]. split; [by apply strict_eq_true|].
    by apply list_elem_of_In.
  - intros Hnull Hin. apply strict_eq_false in Hnull. rewrite Hnull. simpl.
    destruct (List.find _ _) as [o|] eqn:Hfind; [eauto|].
    apply list_elem_of_fmap in Hin as (o & Hpk & Ho).
    apply list_elem_of_In in Ho.
    pose proof (find_none _ _ Hfind o Ho) as Hno. simpl in Hno.
    rewrite <- Hpk, strict_eq_refl in Hno. discriminate.
  - intros Hnull Hout. apply strict_eq_false in Hnull. rewrite Hnull. simpl.
    destruct (List.find _ _) as [o|] eqn:Hfind; [|done].
    apply find_some in Hfind as [Hin Heq]. exfalso. apply Hout.
    apply strict_eq_true in Heq as <-.
    apply list_elem_of_fmap. exists o. by rewrite list_elem_of_In.
Qed.

(** X2.  When the select reports an input change before and after a
    choice, so that the handlers run in the order input change, choice,
    input change, the identifier of the chosen option is tracked as the
    selection and, for a definition without value-change callback, bound
    under the field's name; the cache is empty and the offset 0 afterwards,
    and the value handed to the select is [undefined]. *)
Theorem choice_between_input_changes (definition : ApiFormFieldType)
    (name : string) (m : Machine) (o : SelectOption) (q1 q2 : string) :
  nullish (opt_value o) = false ->
  let m' := run name (onInputChange q1
                      ++ onChange definition (SelOption o)
                      ++ onInputChange q2) m in
  pk (local m') = opt_value o
  /\ data (local m') = []
  /\ offset (local m') = 0
  /\ input (local m') = q2
  /\ currentValue (local m') = CurrentUndefined
  /\ (onValueChange definition = None ->
      form m' = <[name := opt_value o]> (form m)).
Proof.
  intros Hid m'.
  assert (Hlocal : local m' = {| pk := opt_value o; offset := 0; data := [];
                                 input := q2;
                                 searchText := searchText (local m) |}).
  { subst m'. unfold onChange, call_onValueChange, coalesce. simpl.
    rewrite Hid. by destruct (onValueChange definition). }
  rewrite Hlocal. simpl. repeat split.
  - unfold currentValue. simpl.
    apply not_nullish_not_null, strict_eq_false in Hid. by rewrite Hid.
  - intros Hcb. subst m'. unfold onChange, call_onValueChange, coalesce.
    rewrite Hcb. simpl. by rewrite Hid.
Qed.

(** X3.  Clearing the selection, or handing the handler anything that is
    not an option, binds [null] under the field's name before any callback
    runs, sets the selection to [null] and leaves nothing displayed: the
    value handed to the select is [false]. *)
Theorem cleared_selection_binds_null (definition : ApiFormFieldType)
    (name : string) (m : Machine) (p : Prim) :
  let m' := run name (onChange definition (SelPrim p)) m in
  form m' = notified definition PNull (<[name := PNull]> (form m))
  /\ pk (local m') = PNull
  /\ currentValue (local m') = CurrentFalse
  /\ data (local m') = data (local m).
Proof.
  cbn zeta. unfold onChange, call_onValueChange, notified, currentValue.
  by destruct (onValueChange definition).
Qed.

(** X4.  Typing a query empties the cache and returns to offset 0 at once,
    while the tracked selection, the bound form value and the search text
    stay; the value handed to the select is then [undefined] when a
    selection is tracked and [false] when none is.  The search text follows
    when the debounce timer fires, and the query key is then the one of the
    first page of the typed text. *)
Theorem typing_resets_search (name fieldId : string) (m : Machine)
    (q : string) :
  let m' := run name (onInputChange q) m in
  data (local m') = []
  /\ offset (local m') = 0
  /\ input (local m') = q
  /\ searchText (local m') = searchText (local m)
  /\ currentValue (local m')
     = (if strict_eq (pk (local m)) PNull then CurrentFalse
        else CurrentUndefined)
  /\ pk (local m') = pk (local m)
  /\ form m' = form m
  /\ requests m' = requests m
  /\ queryKey name fieldId (local (debounce_settle m'))
     = ("related-field-" +:+ name, fieldId, 0, q).
Proof.
  cbn zeta. unfold currentValue. simpl.
  repeat split. by destruct (strict_eq _ _).
Qed.

(** X5.  Scrolling to the bottom in [n] successive renders moves the offset
    forward by [n] pages and changes nothing else; two scroll events
    handled within one render move it by a single page, since both read
    the offset captured by that render. *)
Theorem scrolling_advances_by_pages (limit : Z) (name : string) (n : nat)
    (m : Machine) :
  let m' := scrolled_times limit name n m in
  offset (local m') = offset (local m) + Z.of_nat n * limit
  /\ data (local m') = data (local m)
  /\ pk (local m') = pk (local m)
  /\ (input (local m'), searchText (local m'))
     = (input (local m), searchText (local m))
  /\ form m' = form m
  /\ requests m' = requests m
  /\ offset (local (run name (onMenuScrollToBottom limit (local m)
                             ++ onMenuScrollToBottom limit (local m)) m))
     = offset (local m) + limit.
Proof.
  cbn zeta. induction n as [|n IH]; simpl.
  - repeat split. lia.
  - destruct IH as (Hoff & Hdata & Hpk & Hin & Hform & Hreq & Hone).
    rewrite Hoff. injection Hin as Hin1 Hin2.
    repeat split; try done; try congruence. lia.
Qed.

End Related_selection.

Section Related_query.

Import RelatedModelField.

Variable definition : ApiFormFieldType.
Variable limit : Z.
Variable name : string.

(** X6.  The search text, the offset and the page size always travel under
    the keys [search], [offset] and [limit], also when the caller's
    filters (after the filter-adjustment callback) use those keys; every
    other key of the adjusted filters is sent as it is, and no further key
    is added. *)
Theorem query_params_reserved_keys (s : Local) :
  query_params definition limit s !! "search" = Some (PStr (searchText s))
  /\ query_params definition limit s !! "offset" = Some (PNum (offset s))
  /\ query_params definition limit s !! "limit" = Some (PNum limit)
  /\ forall k, k <> "search" -> k <> "offset" -> k <> "limit" ->
       query_params definition limit s !! k
       = adjusted_filters definition !! k.
Proof.
  unfold query_params. fold (adjusted_filters definition).
  split; [|split; [|split]].
  - rewrite lookup_insert_ne, lookup_insert_ne by done.
    apply lookup_insert_eq.
  - rewrite lookup_insert_ne by done. apply lookup_insert_eq.
  - apply lookup_insert_eq.
  - intros k Hs Ho Hl. by rewrite !lookup_insert_ne.
Qed.

(** X7.  The query is enabled exactly when the field is neither disabled
    nor hidden and has a non-empty resource locator; and whenever it is
    enabled, running the query function sends exactly one list request, to
    that locator with the parameters of the render. *)
Theorem enabled_query_sends (server : Server) (m : Machine) :
  (enabled definition = true
   <-> flag (disabled definition) = false /\ flag (hidden definition) = false
       /\ exists url, api_url definition = Some url /\ url <> "")
  /\ (enabled definition = true ->
      exists url,
        api_url definition = Some url
        /\ requests (queried definition limit name server m)
           = requests m
             ++ [ReqGet url (Some (query_params definition limit (local m)))]).
Proof.
  assert (Hiff : enabled definition = true
                 <-> flag (disabled definition) = false
                     /\ flag (hidden definition) = false
                     /\ exists url, api_url definition = Some url /\ url <> "").
  { unfold enabled, nonempty. rewrite !andb_true_iff, !negb_true_iff.
    destruct (api_url definition) as [url|].
    - rewrite negb_true_iff. split.
      + intros [[Hd Hu] Hh]. split; [done|]. split; [done|].
        exists url. split; [done|]. by apply String.eqb_neq.
      + intros (Hd & Hh & url' & [= <-] & Hne).
        split; [split|]; try done. by apply String.eqb_neq.
    - split; [intros [[_ ?] _]; done | intros (_ & _ & ? & ? & _); done]. }
  split; [exact Hiff|].
  intros Hen. apply Hiff in Hen as (_ & _ & url & Hurl & Hne).
  exists url. split; [done|]. by apply queryFn_sends.
Qed.

(** X8.  Without a resource locator (absent or empty) the query is not
    enabled, and the query function, if run all the same, sends no request,
    changes nothing and resolves to [null]. *)
Theorem query_without_locator (server : Server) (m : Machine) :
  nonempty (api_url definition) = false ->
  enabled definition = false
  /\ queryFn definition limit server (local m) = ([], Fulfilled QNull)
  /\ queried definition limit name server m = m.
Proof.
  intros Hurl.
  assert (Hq : queryFn definition limit server (local m) = ([], Fulfilled QNull)).
  { unfold queryFn. unfold nonempty in Hurl.
    destruct (api_url definition) as [url|]; [|done].
    apply negb_false_iff in Hurl. by rewrite Hurl. }
  split; [|split; [exact Hq|]].
  - unfold enabled. rewrite Hurl. by rewrite andb_false_r.
  - unfold queried. rewrite Hq. by destruct m.
Qed.

(** The three ways the query function can end. *)
Lemma queryFn_outcomes (server : Server) (s : Local) :
  queryFn definition limit server s = ([], Fulfilled QNull)
  \/ (exists url body items,
        queryFn definition limit server s
        = ([ApiGet url (Some (query_params definition limit s));
            SetData (data s
                     ++ map entry (List.filter (is_new (ids (data s))) items))],
           Fulfilled (QResponse body)))
  \/ (exists url e,
        queryFn definition limit server s
        = ([ApiGet url (Some (query_params definition limit s)); SetData []],
           Fulfilled (QError e))).
Proof.
  destruct (nonempty (api_url definition)) eqn:Hurl.
  - right. unfold nonempty in Hurl.
    destruct (api_url definition) as [url|] eqn:Hsome; [|done].
    apply negb_true_iff, String.eqb_neq in Hurl.
    rewrite (queryFn_request _ _ _ _ url) by done.
    unfold api_get, then_, catch_.
    destruct (server url _) as [body|e].
    + unfold list_then.
      destruct (for_each_push _ _ _) as [values|e] eqn:Hloop.
      * left. exists url, body.
        unfold for_each_push in Hloop.
        destruct (body_coalesce _ _) as [| |items|]; try discriminate.
        injection Hloop as <-. rewrite fold_push_item. simpl. eauto.
      * right. simpl. eauto.
    + right. simpl. eauto.
  - left. unfold queryFn. unfold nonempty in Hurl.
    destruct (api_url definition) as [url|]; [|done].
    apply negb_false_iff in Hurl. by rewrite Hurl.
Qed.

(** X9.  The query function never rejects.  Run from a render with state
    [s], it either resolves to [null] without any command (no locator), or
    sends one request and stores a cache that extends the captured one and
    resolves to the response, or sends one request, stores the empty cache
    and resolves to the error. *)
Theorem queryFn_never_rejects (server : Server) (s : Local) :
  queryFn definition limit server s = ([], Fulfilled QNull)
  \/ (exists url body news,
        queryFn definition limit server s
        = ([ApiGet url (Some (query_params definition limit s));
            SetData (data s ++ news)],
           Fulfilled (QResponse body)))
  \/ (exists url e,
        queryFn definition limit server s
        = ([ApiGet url (Some (query_params definition limit s)); SetData []],
           Fulfilled (QError e))).
Proof.
  destruct (queryFn_outcomes server s)
    as [Hnull | [(url & body & items & Hok) | Herr]]; eauto 10.
Qed.

End Related_query.

Section Related_responses.

Import RelatedModelField.

(** X10.  A response without records - no body, an empty list or an empty
    page - stores the captured cache unchanged. *)
Theorem empty_response_keeps_cache (data_ : list SelectOption)
    (response : Body) :
  response = BPrim PUndefined \/ response = BPrim PNull \/ lists response [] ->
  list_then data_ response = ([SetData data_], Fulfilled (QResponse response)).
Proof.
  intros [-> | [-> | Hlists]]; [reflexivity | reflexivity |].
  rewrite (list_then_lists _ _ []) by done. simpl. by rewrite app_nil_r.
Qed.

(** X11.  Records without [pk] are never recognised as cached: when the
    cache holds no [null] or [undefined] identifier, every such record of
    a response is appended, under identifier -1, each time it arrives. *)
Theorem anonymous_records_always_appended (data_ : list SelectOption)
    (response : Body) (items : list Obj) :
  Forall (fun o => nullish (opt_value o) = false) data_ ->
  Forall (fun item => nullish (item_pk item) = true) items ->
  lists response items ->
  stored (list_then data_ response) = Some (data_ ++ map entry items)
  /\ Forall (fun o => opt_value o = PNum (-1)) (map entry items)
  /\ length (data_ ++ map entry items) = (length data_ + length items)%nat.
Proof.
  intros Hdata Hitems Hlists.
  rewrite (list_then_lists _ _ items) by done. simpl.
  assert (Hall : List.filter (is_new (ids data_)) items = items).
  { clear Hlists. induction Hitems as [|item items Hitem _ IH]; simpl; [done|].
    unfold is_new at 1.
    assert (Hnot : includes (ids data_) (item_pk item) = false).
    { apply includes_not_elem_of. intros Hin.
      apply list_elem_of_fmap in Hin as (o & Hpk & Ho).
      rewrite Forall_forall in Hdata. specialize (Hdata o Ho). congruence. }
    rewrite Hnot. simpl. by rewrite IH. }
  rewrite Hall. split; [done|]. split.
  - clear Hall Hlists. induction Hitems as [|item items Hitem _ IH];
      constructor; [|done].
    cbv [entry opt_value coalesce]. by rewrite Hitem.
  - by rewrite length_app, length_map.
Qed.

End Related_responses.

Section Related_resolution.

Import RelatedModelField.

Variable definition : ApiFormFieldType.
Variable name : string.

(** The commands the initial-value effect can issue. *)
Lemma initial_value_effect_commands (server : Server) (field_value pk_ : Prim) :
  let cs := fst (initial_value_effect definition server field_value pk_) in
  cs = []
  \/ cs = [SetPk PNull]
  \/ cs = [ApiGet (detail_url definition field_value) None]
  \/ exists body,
       body_truthy body = true /\ truthy (body_pk body) = true
       /\ server (detail_url definition field_value) None = Fulfilled body
       /\ cs = [ApiGet (detail_url definition field_value) None;
                SetData [{| opt_value := body_pk body; opt_data := body |}];
                SetPk (body_pk body)].
Proof.
  cbn zeta. unfold initial_value_effect. fold (detail_url definition field_value).
  destruct (strict_eq field_value pk_); [by left|].
  destruct (strict_eq field_value PNull); simpl; [by right; left|].
  unfold then_, api_get.
  destruct (server _ None) as [body|e] eqn:Hreply; [|by right; right; left].
  destruct (body_truthy body && truthy (body_pk body)) eqn:Hok; simpl.
  - apply andb_true_iff in Hok as [? ?]. right. right. right. by exists body.
  - by right; right; left.
Qed.

(** X12.  Right after the answer to the single-record request (bound value
    not [null] and different from the selection, a record with truthy
    [pk]) the cache is that record and the value handed to the select is
    its entry.  When the answer to a list request sent by the same render
    is handled afterwards, the cache becomes the one that render had
    captured followed by the new records of the response, the selection
    staying; unless one of these entries carries the selection, the value
    handed to the select is then [undefined]. *)
Theorem seed_replaced_by_mount_query (limit : Z)
    (server list_server : Server) (m : Machine) (body : Body) (url : string)
    (response : Body) (items : list Obj) :
  prop (form m) name <> PNull -> prop (form m) name <> pk (local m) ->
  server (detail_url definition (prop (form m) name)) None = Fulfilled body ->
  body_truthy body = true -> truthy (body_pk body) = true ->
  api_url definition = Some url -> url <> "" ->
  list_server url (Some (query_params definition limit (local m)))
  = Fulfilled response ->
  lists response items ->
  let seeded := resolved definition server name m in
  let m' := run name
              (fst (queryFn definition limit list_server (local m))) seeded in
  data (local seeded) = [{| opt_value := body_pk body; opt_data := body |}]
  /\ currentValue (local seeded)
     = CurrentOption {| opt_value := body_pk body; opt_data := body |}
  /\ data (local m')
     = data (local m)
       ++ map entry (List.filter (is_new (ids (data (local m)))) items)
  /\ pk (local m') = body_pk body
  /\ (body_pk body ∉ ids (data (local m')) ->
      currentValue (local m') = CurrentUndefined).
Proof.
  intros Hnull Hpk Hreply Hbody Htruthy Hurl Hne Hlist Hlists seeded m'.
  assert (Hseeded : local seeded
                    = {| pk := body_pk body; offset := offset (local m);
                         data := [{| opt_value := body_pk body;
                                     opt_data := body |}];
                         input := input (local m);
                         searchText := searchText (local m) |}).
  { subst seeded. unfold resolved. rewrite initial_value_effect_fetch by done.
    unfold then_, api_get. by rewrite Hreply, Hbody, Htruthy. }
  assert (Hnot_null : strict_eq (body_pk body) PNull = false)
    by (by apply strict_eq_false, not_nullish_not_null, truthy_not_nullish).
  assert (Hm' : local m'
                = {| pk := body_pk body; offset := offset (local m);
                     data := data (local m)
                             ++ map entry
                                  (List.filter (is_new (ids (data (local m))))
                                     items);
                     input := input (local m);
                     searchText := searchText (local m) |}).
  { subst m'. rewrite (queryFn_request _ _ _ _ url) by done.
    unfold api_get, then_, catch_. rewrite Hlist.
    rewrite (list_then_lists _ _ items) by done. simpl. by rewrite Hseeded. }
  rewrite Hseeded, Hm'. simpl. split; [done|]. split.
  - unfold currentValue. simpl. by rewrite Hnot_null, strict_eq_refl.
  - split; [done|]. split; [done|]. intros Hout.
    unfold currentValue. simpl. rewrite Hnot_null. simpl.
    destruct (List.find _ _) as [o|] eqn:Hfind; [|done].
    apply find_some in Hfind as [Hin Heq]. exfalso. apply Hout.
    apply strict_eq_true in Heq as <-.
    apply list_elem_of_fmap. exists o. by rewrite list_elem_of_In.
Qed.

(** X13.  Once a request has been answered with a record whose [pk] is the
    value that was bound, running the effect again issues nothing: the
    selection now equals the bound value.  If the answer carries another
    truthy [pk], the selection differs from the bound value and a further
    run sends the same request again. *)
Theorem resolution_settles (server server' : Server) (m : Machine)
    (body : Body) :
  prop (form m) name <> PNull -> prop (form m) name <> pk (local m) ->
  server (detail_url definition (prop (form m) name)) None = Fulfilled body ->
  body_truthy body = true -> truthy (body_pk body) = true ->
  let m' := resolved definition server name m in
  (body_pk body = prop (form m) name ->
   initial_value_effect definition server' (prop (form m') name) (pk (local m'))
   = ([], Fulfilled tt))
  /\ (body_pk body <> prop (form m) name ->
      requests (resolved definition server' name m')
      = requests m' ++ [ReqGet (detail_url definition (prop (form m) name)) None]).
Proof.
  intros Hnull Hpk Hreply Hbody Htruthy m'.
  assert (Hm' : form m' = form m /\ pk (local m') = body_pk body).
  { subst m'. unfold resolved. rewrite initial_value_effect_fetch by done.
    unfold then_, api_get. by rewrite Hreply, Hbody, Htruthy. }
  destruct Hm' as [Hform Hsel]. split.
  - intros Hsame. rewrite Hform, Hsel, Hsame.
    unfold initial_value_effect. by rewrite strict_eq_refl.
  - intros Hother. unfold resolved at 1. rewrite Hform, Hsel.
    rewrite initial_value_effect_fetch by done.
    unfold then_, api_get.
    destruct (server' _ None) as [body'|e]; [|done].
    by destruct (body_truthy body' && truthy (body_pk body')).
Qed.

(** X14.  Whatever the server answers, the initial-value effect never
    writes the form, the offset, the typed query or the search text, and
    sends at most one request. *)
Theorem initial_value_effect_frame (server : Server) (m : Machine) :
  let m' := resolved definition server name m in
  form m' = form m
  /\ (offset (local m'), input (local m'), searchText (local m'))
     = (offset (local m), input (local m), searchText (local m))
  /\ (requests m' = requests m
      \/ requests m'
         = requests m
           ++ [ReqGet (detail_url definition (prop (form m) name)) None]).
Proof.
  cbn zeta. unfold resolved.
  destruct (initial_value_effect_commands server (prop (form m) name)
              (pk (local m)))
    as [-> | [-> | [-> | (body & _ & _ & _ & ->)]]]; simpl; auto.
Qed.

(** X15.  A field mounted while the form holds no value under its name
    reads the value [undefined], which is not [null]: unless the selection
    is itself [undefined], the effect sends a request for the locator
    followed by "undefined/". *)
Theorem unset_value_is_requested (server : Server) (m : Machine) :
  form m !! name = None -> pk (local m) <> PUndefined ->
  requests (resolved definition server name m)
  = requests m
    ++ [ReqGet (opt_to_string (api_url definition) +:+ "undefined/") None].
Proof.
  intros Hunset Hpk. unfold resolved, prop. rewrite Hunset. simpl.
  rewrite initial_value_effect_fetch by done.
  unfold then_, api_get, detail_url. simpl.
  destruct (server _ None) as [body|e]; [|done].
  by destruct (body_truthy body && truthy (body_pk body)).
Qed.

End Related_resolution.

Section Related_invariants.

Import RelatedModelField.

Variable definition : ApiFormFieldType.
Variable limit : Z.
Variable name : string.

Lemma keyed_entry (item : Obj) : keyed (entry item).
Proof. reflexivity. Qed.

Lemma keyed_not_nullish (o : SelectOption) :
  keyed o -> nullish (opt_value o) = false.
Proof.
  unfold keyed, coalesce. intros ->.
  by destruct (nullish (body_pk (opt_data o))) eqn:E.
Qed.

(** X16.  In every state a mounted related-entity field can reach - through
    its effect, its list queries (also answered late, with the cache of an
    earlier render), typing, scrolling, opening the menu, choosing or
    clearing, and changes of the form from outside - each cache entry is
    stored under the [pk] of its record (-1 when it has none), so no entry
    is stored under [null] or [undefined]; the selection is never
    [undefined]; and the offset is a whole number of pages. *)
Theorem reachable_invariants (m : Machine) :
  reachable definition limit name m ->
  Forall keyed (data (local m))
  /\ Forall (fun o => nullish (opt_value o) = false) (data (local m))
  /\ pk (local m) <> PUndefined
  /\ exists k : nat, offset (local m) = Z.of_nat k * limit.
Proof.
  intros Hreach.
  assert (Hinv : Forall keyed (data (local m))
                 /\ pk (local m) <> PUndefined
                 /\ exists k : nat, offset (local m) = Z.of_nat k * limit).
  { induction Hreach
      as [f | f m _ IH | server m0 m _ IH0 _ IH | server m0 m _ IH0 _ IH
          | q m _ IH | m _ IH | m _ IH | m _ IH | v m _ IH].
    - simpl. split; [constructor|]. split; [done|]. by exists O.
    - exact IH.
    - destruct IH as (Hdata & Hpk & Hoff).
      destruct (initial_value_effect_commands definition server
                  (prop (form m0) name) (pk (local m0)))
        as [-> | [-> | [-> | (body & _ & Htruthy & _ & ->)]]]; simpl.
      + done.
      + done.
      + done.
      + split; [|split; [|done]].
        * constructor; [|constructor]. unfold keyed, coalesce. simpl.
          by rewrite (truthy_not_nullish _ Htruthy).
        * intros Hundef. by rewrite Hundef in Htruthy.
    - destruct IH as (Hdata & Hpk & Hoff). destruct IH0 as (Hdata0 & _ & _).
      destruct (queryFn_outcomes definition limit server (local m0))
        as [-> | [(url & body & items & ->) | (url & e & ->)]]; simpl.
      + done.
      + split; [|done]. apply Forall_app. split; [done|].
        apply Forall_forall. intros o Ho.
        apply list_elem_of_fmap in Ho as (item & -> & _). apply keyed_entry.
      + split; [constructor | done].
    - destruct IH as (Hdata & Hpk & Hoff). simpl.
      split; [constructor|]. split; [done|]. by exists O.
    - exact IH.
    - destruct IH as (Hdata & Hpk & [k Hoff]). simpl.
      split; [done|]. split; [done|]. exists (S k). lia.
    - destruct IH as (Hdata & Hpk & Hoff). simpl.
      split; [done|]. split; [done|]. by exists O.
    - destruct IH as (Hdata & Hpk & Hoff).
      unfold onChange, call_onValueChange.
      destruct (onValueChange definition); simpl;
        (split; [done|]; split; [|done]);
        unfold coalesce; by destruct (selected_value v). }
  destruct Hinv as (Hkeyed & Hpk & Hoff). split; [done|]. split; [|done].
  eapply Forall_impl; [exact Hkeyed|]. apply keyed_not_nullish.
Qed.

End Related_invariants.

(** ** Further properties of the generic renderer *)

Section Renderer_properties.

Import ApiFormField.

Variable parseInt parseFloat : Prim -> JsNumber.
Variable previous : option Memo.

#[local] Abbreviation coerce := (coerce parseInt parseFloat).
#[local] Abbreviation numericalValue :=
  (numericalValue parseInt parseFloat previous).
#[local] Abbreviation buildField := (buildField parseInt parseFloat previous).

(** Evaluates the [switch] of [buildField] for each tag of a list the tag
    is known to be in. *)
Ltac each_tag H :=
  apply tag_in_inv in H as (? & H & Hcase);
  repeat (apply elem_of_cons in Hcase as [-> | Hcase]);
  [.. | by apply elem_of_nil in Hcase].

Lemma coerce_finite (definition : ApiFormFieldType) (raw : Prim) :
  isFinite (coerce definition raw) = true.
Proof.
  unfold ApiFormField.coerce, num_coalesce.
  destruct (tag_in _ ["integer"]); [by destruct (parseInt raw)|].
  destruct (tag_in _ _); [by destruct (parseFloat raw)|done].
Qed.

Lemma rendered_memo_finite (renders : list (ApiFormFieldType * Prim))
    (cell : Memo) :
  rendered_memo parseInt parseFloat renders = Some cell ->
  isFinite (memo_result cell) = true.
Proof.
  revert cell. induction renders as [|[d r] renders IH] using rev_ind;
    intros cell; [done|].
  unfold rendered_memo in *. rewrite fold_left_app. simpl.
  intros [= <-]. unfold ApiFormField.numericalValue.
  destruct (fold_left _ renders None) as [old|]; [|apply coerce_finite].
  destruct (strict_eq (memo_dep old) r); [by apply IH | apply coerce_finite].
Qed.

(** X17.  Whatever the parsers return, whatever the type tag and whatever
    renders came before, the coerced numeric value a render holds is a
    finite number, never NaN or an infinity; a field of a numeric type is
    rendered as a number input holding that value, with precision 0 for
    [integer] and 10 otherwise. *)
Theorem numericalValue_is_finite (renders : list (ApiFormFieldType * Prim))
    (fieldName fieldId : string) (definition : ApiFormFieldType) (raw : Prim)
    (error : option string) :
  let before := rendered_memo parseInt parseFloat renders in
  let held :=
    memo_result
      (ApiFormField.numericalValue parseInt parseFloat before definition raw) in
  isFinite held = true
  /\ isNaN held = false
  /\ (tag_in (field_type definition) ["integer"; "decimal"; "float"; "number"]
      = true ->
      number_value
        (ApiFormField.buildField parseInt parseFloat before
           fieldName fieldId definition raw error)
      = Some (held, if tag_in (field_type definition) ["integer"] then 0 else 10)).
Proof.
  intros before held.
  assert (Hfinite : isFinite held = true).
  { subst held. unfold ApiFormField.numericalValue.
    destruct before as [old|] eqn:Hbefore; [|apply coerce_finite].
    destruct (strict_eq (memo_dep old) raw); [|apply coerce_finite].
    by apply (rendered_memo_finite renders). }
  split; [done|]. split; [by destruct held|].
  intros H. unfold ApiFormField.buildField. each_tag H; by rewrite H.
Qed.

(** X18.  The error alert is shown for the unrecognized type tags and for
    no other: [buildField] returns an alert exactly when the tag is none of
    the thirteen it has a case for. *)
Theorem alert_iff_unrecognized (fieldName fieldId : string)
    (definition : ApiFormFieldType) (raw : Prim) (error : option string) :
  alert_text (buildField fieldName fieldId definition raw error) = None
  <-> tag_in (field_type definition) recognized = true.
Proof.
  split.
  - intros Hnone. destruct (tag_in _ recognized) eqn:Htag; [done|].
    by rewrite buildField_unrecognized in Hnone.
  - intros H. unfold ApiFormField.buildField. each_tag H; by rewrite H.
Qed.

(** X19.  A text input is never bound to [null], [undefined] or another
    falsy value than the empty string, and a switch is never bound to
    [null] or [undefined], whatever the form holds. *)
Theorem controlled_inputs_are_defined (fieldName fieldId : string)
    (definition : ApiFormFieldType) (raw : Prim) (error : option string) :
  (tag_in (field_type definition) ["email"; "url"; "string"] = true ->
   exists v, bound_value (buildField fieldName fieldId definition raw error)
             = Some v
             /\ nullish v = false /\ (truthy v = true \/ v = PStr ""))
  /\ (tag_in (field_type definition) ["boolean"] = true ->
      exists v, bound_value (buildField fieldName fieldId definition raw error)
                = Some v
                /\ nullish v = false).
Proof.
  split; intros H; unfold ApiFormField.buildField.
  - exists (or_else raw (PStr "")).
    split; [each_tag H; by rewrite H|].
    unfold or_else. destruct (truthy raw) eqn:Hraw.
    + split; [by apply truthy_not_nullish | by left].
    + split; [done | by right].
  - exists (coalesce raw (PBool false)).
    split; [each_tag H; by rewrite H|].
    unfold coalesce. by destruct (nullish raw) eqn:Hraw.
Qed.

End Renderer_properties.

Section Form_binding.

Import ApiFormField.

(** X20.  For a field that is not a nested object and whose definition
    carries a value, the synchronisation effect binds that value under the
    field's name and leaves the values of all other fields, the local state
    and the requests as they are; for a nested-object field it changes
    nothing, with or without a value. *)
Theorem sync_effect_binds_own_field (name : string)
    (definition : ApiFormFieldType) (m : Machine) :
  let m' := run name (sync_value_effect definition) m in
  (tag_in (field_type definition) ["nested object"] = false ->
   value definition <> PUndefined ->
   form m' !! name = Some (value definition)
   /\ (forall other, other <> name -> form m' !! other = form m !! other)
   /\ local m' = local m /\ requests m' = requests m)
  /\ (tag_in (field_type definition) ["nested object"] = true -> m' = m).
Proof.
  cbn zeta. unfold sync_value_effect. split.
  - intros -> Hvalue. apply strict_eq_false in Hvalue. rewrite Hvalue. simpl.
    split; [apply lookup_insert_eq|]. split; [|done].
    intros other Hother. by apply lookup_insert_ne.
  - intros ->. by destruct m.
Qed.

(** X21.  The last writer wins.  A user edit made after the
    synchronisation effect is what the form holds (for a definition without
    value-change callback); a synchronisation run after the edit, for a
    definition that carries a value and is not a nested object, puts the
    definition's value back, whatever the edit and its callback did. *)
Theorem last_writer_wins (name : string) (definition : ApiFormFieldType)
    (v : Prim) (m : Machine) :
  (onValueChange definition = None ->
   form (run name (sync_value_effect definition ++ onChange definition v) m)
   !! name = Some v)
  /\ (tag_in (field_type definition) ["nested object"] = false ->
      value definition <> PUndefined ->
      form (run name (onChange definition v ++ sync_value_effect definition) m)
      !! name = Some (value definition)).
Proof.
  split.
  - intros Hcb. unfold run. rewrite fold_left_app.
    unfold onChange, call_onValueChange. rewrite Hcb. simpl.
    apply lookup_insert_eq.
  - intros Htag Hvalue. unfold run. rewrite fold_left_app.
    unfold sync_value_effect. rewrite Htag.
    apply strict_eq_false in Hvalue. rewrite Hvalue. simpl.
    apply lookup_insert_eq.
Qed.

(** X22.  Stripping composes: each of the two cut-down functions is
    idempotent, the generic one absorbs the one of the related-entity field
    in either order, and the two agree on a definition exactly when it has
    no nested definitions. *)
Theorem stripping_composes (definition : ApiFormFieldType) :
  reducedDefinition (reducedDefinition definition)
  = reducedDefinition definition
  /\ RelatedModelField.fieldDefinition
       (RelatedModelField.fieldDefinition definition)
     = RelatedModelField.fieldDefinition definition
  /\ reducedDefinition (RelatedModelField.fieldDefinition definition)
     = reducedDefinition definition
  /\ RelatedModelField.fieldDefinition (reducedDefinition definition)
     = reducedDefinition definition
  /\ (RelatedModelField.fieldDefinition definition
      = reducedDefinition definition
      <-> children definition = None).
Proof.
  repeat split.
  - intros H. by apply (f_equal children) in H.
  - intros H. unfold RelatedModelField.fieldDefinition, reducedDefinition.
    by rewrite H.
Qed.

(** X23.  The select of a related-entity field never shows an empty
    placeholder: it shows the definition's placeholder when that is a
    non-empty text and "Search..." otherwise. *)
Theorem placeholder_never_empty (definition : ApiFormFieldType)
    (fieldId : string) (error : option string) (limit : Z) (s : Local) :
  let shown :=
    RelatedModelField.sel_placeholder
      (RelatedModelField.wrapper_children
         (RelatedModelField.render definition fieldId error limit s)) in
  shown <> ""
  /\ (forall text, placeholder definition = Some text -> text <> "" ->
                   shown = text)
  /\ (placeholder definition = None \/ placeholder definition = Some "" ->
      shown = "Search...").
Proof.
  cbn zeta. simpl. unfold nonempty.
  destruct (placeholder definition) as [text|]; simpl.
  - destruct (String.eqb_spec text "") as [-> | Hne]; simpl.
    + split; [done|]. split; [by intros ? [= <-] ? | done].
    + split; [done|]. split; [by intros ? [= <-] _|].
      intros [? | [= ->]]; done.
  - split; [done|]. split; [done|done].
Qed.

End Form_binding.

Section Related_composition.

Import RelatedModelField.

(** X24.  When a list response is handled by a render that had captured
    the cache holding just the record seeded for the bound value, the
    stored cache starts with the seeded entry, which is its only entry
    under that identifier, also if the response contains the record again
    (the identifier being other than -1, under which records without [pk]
    are stored). *)
Theorem seeded_record_not_duplicated (body response : Body)
    (items : list Obj) :
  lists response items ->
  truthy (body_pk body) = true -> body_pk body <> PNum (-1) ->
  let seeded := {| opt_value := body_pk body; opt_data := body |} in
  exists news,
    stored (list_then [seeded] response) = Some (seeded :: news)
    /\ occurrences (body_pk body) (seeded :: news) = 1%nat.
Proof.
  intros Hlists Htruthy Hminus seeded.
  exists (map entry (List.filter (is_new (ids [seeded])) items)).
  rewrite (list_then_lists _ _ items) by done. split; [done|].
  change (seeded :: ?l) with ([seeded] ++ l).
  rewrite occurrences_app, (occurrences_absent _ (map entry _)).
  - unfold occurrences. simpl. by rewrite strict_eq_refl.
  - intros Hin. apply list_elem_of_fmap in Hin as (o & Hvalue & Ho).
    apply list_elem_of_fmap in Ho as (item & -> & Hitem).
    apply elem_of_bool_filter in Hitem as [_ Hnew].
    unfold is_new in Hnew. apply negb_true_iff in Hnew. simpl in Hnew.
    rewrite orb_false_r in Hnew. apply strict_eq_false in Hnew.
    unfold entry, coalesce in Hvalue. simpl in Hvalue.
    destruct (nullish (item_pk item)); congruence.
Qed.

(** X25.  The cache stored when a list response arrives is built from the
    cache captured by the render that sent the request, not from the cache
    current at arrival: whatever the cache holds by then is replaced by the
    captured cache followed by the new records of the response. *)
Theorem late_response_restores_captured_cache (definition : ApiFormFieldType)
    (limit : Z) (name : string) (server : Server) (m0 m : Machine)
    (url : string) (response : Body) (items : list Obj) :
  api_url definition = Some url -> url <> "" ->
  server url (Some (query_params definition limit (local m0)))
  = Fulfilled response ->
  lists response items ->
  data (local (run name (fst (queryFn definition limit server (local m0))) m))
  = data (local m0)
    ++ map entry (List.filter (is_new (ids (data (local m0)))) items).
Proof.
  intros Hurl Hne Hreply Hlists.
  rewrite (queryFn_request _ _ _ _ url) by done.
  unfold api_get, then_, catch_. rewrite Hreply.
  by rewrite (list_then_lists _ _ items).
Qed.

End Related_composition.

(** ** The further properties at concrete fields *)

(** Record 3 is cached and selected; then record 5 is selected, which the
    cache does not hold. *)
Lemma currentValue_three_results_witness :
  RelatedModelField.currentValue
    {| pk := PNum 3; offset := 0; data := [entry (record 3)];
       input := ""; searchText := "" |}
  = RelatedModelField.CurrentOption (entry (record 3))
  /\ RelatedModelField.currentValue
       {| pk := PNum 5; offset := 0; data := [entry (record 3)];
          input := ""; searchText := "" |}
     = RelatedModelField.CurrentUndefined.
Proof.
  split.
  - set (s := {| pk := PNum 3; offset := 0; data := [entry (record 3)];
                 input := ""; searchText := "" |}).
    destruct (currentValue_three_results s) as (_ & Hsound & Hshown & _).
    destruct Hshown as [o Ho]; [discriminate | by left |].
    destruct (Hsound o Ho) as (_ & Hvalue & Hin).
    apply list_elem_of_singleton in Hin. by rewrite Ho, Hin.
  - set (s := {| pk := PNum 5; offset := 0; data := [entry (record 3)];
                 input := ""; searchText := "" |}).
    destruct (currentValue_three_results s) as (_ & _ & _ & Hmissing).
    apply Hmissing; [discriminate|].
    intros Hin. apply list_elem_of_singleton in Hin. discriminate.
Defined.

(** Record 3 is chosen from the cache of a search in progress, the select
    reporting an empty input before and after. *)
Lemma choice_between_input_changes_witness :
  let m' := run "part"
              (RelatedModelField.onInputChange ""
               ++ RelatedModelField.onChange part_field
                    (RelatedModelField.SelOption (entry (record 3)))
               ++ RelatedModelField.onInputChange "")
              (machine ∅ searching) in
  pk (local m') = PNum 3
  /\ data (local m') = []
  /\ RelatedModelField.currentValue (local m')
     = RelatedModelField.CurrentUndefined
  /\ form m' = {[ "part" := PNum 3 ]}.
Proof.
  intros m'.
  destruct (choice_between_input_changes part_field "part"
              (machine ∅ searching) (entry (record 3)) "" "" eq_refl)
    as (Hpk & Hdata & _ & _ & Hvalue & Hform).
  split; [exact Hpk|]. split; [exact Hdata|]. split; [exact Hvalue|].
  exact (Hform eq_refl).
Defined.

(** A caller filter that tries to set the offset, beside a category
    filter. *)
Lemma query_params_reserved_keys_witness :
  let definition :=
    {| label := None; value := PUndefined; default_ := PUndefined;
       icon := None; field_type := Some "related field";
       api_url := Some "/api/part/"; model := None; modelRenderer := None;
       filters := Some {[ "offset" := PNum 500; "category" := PNum 4 ]};
       children := None; required := None; choices := None; hidden := None;
       disabled := None; read_only := None; placeholder := None;
       description := None; preFieldContent := None;
       postFieldContent := None; onValueChange := None;
       adjustFilters := None |} in
  RelatedModelField.query_params definition 10 searching !! "offset"
  = Some (PNum 10)
  /\ RelatedModelField.query_params definition 10 searching !! "category"
     = Some (PNum 4).
Proof.
  intros definition.
  destruct (query_params_reserved_keys definition 10 searching)
    as (_ & Hoffset & _ & Hother).
  split; [exact Hoffset|].
  rewrite Hother by discriminate. reflexivity.
Defined.

(** The part field is enabled and its query is sent. *)
Lemma enabled_query_sends_witness :
  requests (queried part_field 10 "part" unreachable (machine ∅ searching))
  = [ReqGet "/api/part/"
       (Some (RelatedModelField.query_params part_field 10 searching))].
Proof.
  destruct (enabled_query_sends part_field 10 "part" unreachable
              (machine ∅ searching)) as [_ Hsends].
  destruct (Hsends eq_refl) as (url & [= <-] & Hreq). exact Hreq.
Defined.

(** A related field without locator. *)
Lemma query_without_locator_witness :
  RelatedModelField.enabled blank = false
  /\ queried blank 10 "part" unreachable (machine ∅ searching)
     = machine ∅ searching.
Proof.
  destruct (query_without_locator blank 10 "part" unreachable
              (machine ∅ searching) eq_refl) as (Hen & _ & Hsame).
  split; [exact Hen | exact Hsame].
Defined.

(** An empty page arrives at a cache holding record 3. *)
Lemma empty_response_keeps_cache_witness :
  RelatedModelField.list_then [entry (record 3)] (BPage [] ∅)
  = ([SetData [entry (record 3)]],
     Fulfilled (RelatedModelField.QResponse (BPage [] ∅))).
Proof.
  apply empty_response_keeps_cache. right. right. right. by exists ∅.
Defined.

(** A record without [pk] arrives at a cache that already holds it. *)
Lemma anonymous_records_always_appended_witness :
  stored (RelatedModelField.list_then [entry anonymous] (BArray [anonymous]))
  = Some [entry anonymous; entry anonymous].
Proof.
  destruct (anonymous_records_always_appended [entry anonymous]
              (BArray [anonymous]) [anonymous]) as (Hstored & _).
  - by repeat constructor.
  - by repeat constructor.
  - by left.
  - exact Hstored.
Defined.

(** The form binds part 42; the record request is answered with record
    42, then the list request of the same render with records 3 and 4. *)
Lemma seed_replaced_by_mount_query_witness :
  let m := machine {[ "part" := PNum 42 ]} initial_local in
  let seeded := resolved part_field (answering (BObject (record 42))) "part" m in
  let m' := run "part"
              (fst (RelatedModelField.queryFn part_field 10
                      (answering (BArray [record 3; record 4])) (local m)))
              seeded in
  RelatedModelField.currentValue (local seeded)
  = RelatedModelField.CurrentOption
      {| opt_value := PNum 42; opt_data := BObject (record 42) |}
  /\ ids (data (local m')) = [PNum 3; PNum 4]
  /\ pk (local m') = PNum 42
  /\ RelatedModelField.currentValue (local m')
     = RelatedModelField.CurrentUndefined.
Proof.
  intros m seeded m'.
  destruct (seed_replaced_by_mount_query part_field "part" 10
              (answering (BObject (record 42)))
              (answering (BArray [record 3; record 4])) m
              (BObject (record 42)) "/api/part/"
              (BArray [record 3; record 4]) [record 3; record 4])
    as (_ & Hseed & Hdata & Hpk & Hlost);
    [vm_compute; discriminate | vm_compute; discriminate
     | reflexivity | reflexivity | reflexivity | reflexivity | discriminate
     | reflexivity | by left |].
  split; [exact Hseed|]. split; [reflexivity|]. split; [exact Hpk|].
  apply Hlost. fold m'. change (ids (data (local m'))) with [PNum 3; PNum 4].
  intros Hin. repeat (apply elem_of_cons in Hin as [Hin | Hin]; [discriminate|]).
  by apply elem_of_nil in Hin.
Defined.

(** After that answer, a further run of the effect issues nothing. *)
Lemma resolution_settles_witness :
  let m' := resolved part_field (answering (BObject (record 42))) "part"
              (machine {[ "part" := PNum 42 ]} initial_local) in
  RelatedModelField.initial_value_effect part_field unreachable
    (prop (form m') "part") (pk (local m'))
  = ([], Fulfilled tt).
Proof.
  intros m'.
  destruct (resolution_settles part_field "part"
              (answering (BObject (record 42))) unreachable
              (machine {[ "part" := PNum 42 ]} initial_local)
              (BObject (record 42))) as [Hsettled _];
    [vm_compute; discriminate | vm_compute; discriminate
     | reflexivity | reflexivity | reflexivity |].
  apply Hsettled. reflexivity.
Defined.

(** A part field mounted on an empty form. *)
Lemma unset_value_is_requested_witness :
  requests (resolved part_field unreachable "part" (machine ∅ initial_local))
  = [ReqGet "/api/part/undefined/" None].
Proof.
  apply (unset_value_is_requested part_field "part" unreachable
           (machine ∅ initial_local)); [reflexivity | discriminate].
Defined.

(** The state after mounting, receiving a page with record 1 and an
    anonymous record, and scrolling once. *)
Lemma reachable_invariants_witness :
  let m1 := run "part"
              (fst (RelatedModelField.queryFn part_field 10
                      (answering (BArray [record 1; anonymous]))
                      (local (machine ∅ initial_local))))
              (machine ∅ initial_local) in
  let m2 := run "part"
              (RelatedModelField.onMenuScrollToBottom 10 (local m1)) m1 in
  ids (data (local m2)) = [PNum 1; PNum (-1)]
  /\ Forall (fun o => nullish (opt_value o) = false) (data (local m2))
  /\ exists k : nat, offset (local m2) = Z.of_nat k * 10.
Proof.
  intros m1 m2.
  assert (Hreach : reachable part_field 10 "part" m2).
  { apply reach_scroll.
    apply (reach_query part_field 10 "part"
             (answering (BArray [record 1; anonymous]))
             (machine ∅ initial_local) (machine ∅ initial_local));
      apply reach_mount. }
  destruct (reachable_invariants part_field 10 "part" m2 Hreach)
    as (_ & Hids & _ & Hoff).
  split; [reflexivity|]. split; [exact Hids | exact Hoff].
Defined.

(** A quantity field rendered as text and then, the bound value having
    changed to "12 pcs", as an integer. *)
Lemma numericalValue_is_finite_witness :
  number_value
    (ApiFormField.buildField Builtins.parseInt Builtins.parseFloat
       (rendered_memo Builtins.parseInt Builtins.parseFloat
          [(sample (Some "string") PUndefined None None None None None,
            PStr "12")])
       "quantity" "field-1"
       (sample (Some "integer") PUndefined None None None None None)
       (PStr "12 pcs") None)
  = Some (Finite (Q2Qc (inject_Z 12)), 0).
Proof.
  destruct (numericalValue_is_finite Builtins.parseInt Builtins.parseFloat
              [(sample (Some "string") PUndefined None None None None None,
                PStr "12")]
              "quantity" "field-1"
              (sample (Some "integer") PUndefined None None None None None)
              (PStr "12 pcs") None) as (_ & _ & Hwidget).
  rewrite (Hwidget eq_refl). reflexivity.
Defined.

(** A date field shows no alert. *)
Lemma alert_iff_unrecognized_witness :
  ApiFormField.alert_text
    (ApiFormField.buildField Builtins.parseInt Builtins.parseFloat None
       "due" "field-1"
       (sample (Some "date") PUndefined None None None None None)
       PUndefined None)
  = None.
Proof.
  apply (alert_iff_unrecognized Builtins.parseInt Builtins.parseFloat None).
  reflexivity.
Defined.

(** A text field and a switch on a form that holds [null] for them. *)
Lemma controlled_inputs_are_defined_witness :
  (exists v,
     bound_value
       (ApiFormField.buildField Builtins.parseInt Builtins.parseFloat None
          "name" "field-1"
          (sample (Some "string") PUndefined None None None None None)
          PNull None) = Some v
     /\ nullish v = false /\ (truthy v = true \/ v = PStr ""))
  /\ (exists v,
        bound_value
          (ApiFormField.buildField Builtins.parseInt Builtins.parseFloat None
             "active" "field-2"
             (sample (Some "boolean") PUndefined None None None None None)
             PNull None) = Some v
        /\ nullish v = false).
Proof.
  split.
  - destruct (controlled_inputs_are_defined Builtins.parseInt
                Builtins.parseFloat None "name" "field-1"
                (sample (Some "string") PUndefined None None None None None)
                PNull None) as [Htext _].
    exact (Htext eq_refl).
  - destruct (controlled_inputs_are_defined Builtins.parseInt
                Builtins.parseFloat None "active" "field-2"
                (sample (Some "boolean") PUndefined None None None None None)
                PNull None) as [_ Hswitch].
    exact (Hswitch eq_refl).
Defined.

(** A text field preset to "M3" on a form that also holds a quantity. *)
Lemma sync_effect_binds_own_field_witness :
  let definition := sample (Some "string") (PStr "M3") None None None None None in
  let m := machine {[ "quantity" := PNum 5 ]} initial_local in
  let m' := run "name" (ApiFormField.sync_value_effect definition) m in
  form m' !! "name" = Some (PStr "M3")
  /\ form m' !! "quantity" = Some (PNum 5).
Proof.
  intros definition m m'.
  destruct (sync_effect_binds_own_field "name" definition m) as [Hbind _].
  destruct Hbind as (Hown & Hothers & _); [reflexivity | discriminate |].
  split; [exact Hown|]. rewrite Hothers by discriminate. reflexivity.
Defined.

(** The user replaces the preset "M3" by "M4"; a later synchronisation
    puts "M3" back. *)
Lemma last_writer_wins_witness :
  let definition := sample (Some "string") (PStr "M3") None None None None None in
  let m := machine ∅ initial_local in
  form (run "name"
          (ApiFormField.sync_value_effect definition
           ++ ApiFormField.onChange definition (PStr "M4")) m) !! "name"
  = Some (PStr "M4")
  /\ form (run "name"
             (ApiFormField.onChange definition (PStr "M4")
              ++ ApiFormField.sync_value_effect definition) m) !! "name"
     = Some (PStr "M3").
Proof.
  intros definition m.
  destruct (last_writer_wins "name" definition (PStr "M4") m)
    as [Hedit Hsync].
  split; [exact (Hedit eq_refl) | apply Hsync; [reflexivity | discriminate]].
Defined.

(** A definition with nested definitions, and one without. *)
Lemma stripping_composes_witness :
  RelatedModelField.fieldDefinition
    (sample (Some "string") PUndefined None None (Some [("unit", blank)])
       None None)
  <> ApiFormField.reducedDefinition
       (sample (Some "string") PUndefined None None (Some [("unit", blank)])
          None None)
  /\ RelatedModelField.fieldDefinition blank
     = ApiFormField.reducedDefinition blank.
Proof.
  split.
  - intros Heq.
    destruct (stripping_composes
                (sample (Some "string") PUndefined None None
                   (Some [("unit", blank)]) None None))
      as (_ & _ & _ & _ & [Hkids _]).
    discriminate (Hkids Heq).
  - destruct (stripping_composes blank) as (_ & _ & _ & _ & [_ Hsame]).
    exact (Hsame eq_refl).
Defined.

(** The part field has no placeholder of its own. *)
Lemma placeholder_never_empty_witness :
  RelatedModelField.sel_placeholder
    (RelatedModelField.wrapper_children
       (RelatedModelField.render part_field "field-1" None 10 initial_local))
  = "Search...".
Proof.
  destruct (placeholder_never_empty part_field "field-1" None 10 initial_local)
    as (_ & _ & Hdefault).
  apply Hdefault. by left.
Defined.

(** The render had captured the cache seeded with record 42, and the page
    contains record 42 again. *)
Lemma seeded_record_not_duplicated_witness :
  exists news,
    stored (RelatedModelField.list_then
              [{| opt_value := PNum 42; opt_data := BObject (record 42) |}]
              (BPage [record 42; record 43] ∅))
    = Some ({| opt_value := PNum 42; opt_data := BObject (record 42) |} :: news)
    /\ occurrences (PNum 42)
         ({| opt_value := PNum 42; opt_data := BObject (record 42) |} :: news)
       = 1%nat.
Proof.
  apply (seeded_record_not_duplicated (BObject (record 42))
           (BPage [record 42; record 43] ∅) [record 42; record 43]).
  - right. by exists ∅.
  - reflexivity.
  - discriminate.
Defined.

(** The response to the query sent while record 3 was cached arrives after
    the cache was emptied by typing. *)
Lemma late_response_restores_captured_cache_witness :
  let m0 := machine ∅ searching in
  let m := run "part" (RelatedModelField.onInputChange "nut") m0 in
  data (local m) = []
  /\ data (local (run "part"
                    (fst (RelatedModelField.queryFn part_field 10
                            (answering (BArray [record 4])) (local m0)))
                    m))
     = [entry (record 3); entry (record 4)].
Proof.
  intros m0 m. split; [reflexivity|].
  rewrite (late_response_restores_captured_cache part_field 10 "part"
             (answering (BArray [record 4])) m0 m "/api/part/"
             (BArray [record 4]) [record 4]);
    [reflexivity | reflexivity | discriminate | reflexivity | by left].
Defined.
